(** * A shallow embedding of the user CRUD pipeline

    Layers, leaves first, as in the sources:
    - [StatusCodes], [ServiceResponse]   the uniform response envelope
    - [UserService]                       src/api/user/userService.ts
    - [UserRepository]                    the repository over [pool.query]
    - [httpHandlers]                      handleServiceResponse, validateRequest
    - [zod], [userModel]                  the request schemas
    - [MySQL]                             the [users] table of database.ts

    Asynchronous functions are state-passing computations that either
    resolve with a value or reject with what was thrown; [try ... catch]
    is the handler combinator [try_catch]. *)

From Stdlib Require Import ZArith List String Ascii Bool Lia.
From Stdlib Require Import DecimalString.
From Stdlib Require PrimFloat FloatOps SpecFloat.
Import ListNotations.
Open Scope string_scope.
Open Scope Z_scope.

Set Implicit Arguments.

(* ------------------------------------------------------------------ *)
(** ** Promises: resolve or reject, over an explicit world            *)
(* ------------------------------------------------------------------ *)

(** A JavaScript value that a [message] can be read from: an [Error],
    a [TypeError], an error of the driver. The code only ever reads
    [message] and prints it in a template literal: [error_message] is
    that text (for a value that has no such property, the text
    "undefined"). *)
Record Error := mkError { error_name : string; error_message : string }.

Definition TypeError (message : string) : Error := mkError "TypeError" message.

(** What a [catch (ex)] may receive. JavaScript lets any value be
    thrown, and a promise be rejected with any value; the handlers of
    this code read [ex.message] and nothing else, which tells three
    kinds of value apart: a value whose [message] can be read, [null]
    and [undefined]. *)
Inductive Thrown : Type :=
| an_Error (e : Error)
| thrown_null
| thrown_undefined.

Coercion an_Error : Error >-> Thrown.

Definition nullish (ex : Thrown) : bool :=
  match ex with
  | an_Error _ => false
  | thrown_null | thrown_undefined => true
  end.

Inductive Outcome (A : Type) : Type :=
| Resolved (a : A)
| Rejected (ex : Thrown).
Arguments Resolved {A} a.
Arguments Rejected {A} ex.

(** [Async W A]: an [async] function body run from a world [W]. *)
Definition Async (W A : Type) : Type := W -> Outcome A * W.

Definition ret {W A} (a : A) : Async W A := fun w => (Resolved a, w).

Definition throw {W A} (ex : Thrown) : Async W A := fun w => (Rejected ex, w).

Definition bind {W A B} (m : Async W A) (k : A -> Async W B) : Async W B :=
  fun w =>
    match m w with
    | (Resolved a, w') => k a w'
    | (Rejected ex, w') => (Rejected ex, w')
    end.

(** [try { body } catch (ex) { handler ex }] around awaited code. *)
Definition try_catch {W A} (body : Async W A) (handler : Thrown -> Async W A)
  : Async W A :=
  fun w =>
    match body w with
    | (Resolved a, w') => (Resolved a, w')
    | (Rejected ex, w') => handler ex w'
    end.

Declare Scope async_scope.
Delimit Scope async_scope with async.
Notation "x <- m ;; k" := (bind m (fun x => k))
  (at level 61, m at next level, right associativity) : async_scope.
Notation "m ;;; k" := (bind m (fun _ => k))
  (at level 61, right associativity) : async_scope.
Open Scope async_scope.

(** [(ex as Error).message] inside a template literal. The cast checks
    nothing: on [null] and on [undefined] the read raises a TypeError,
    from inside the handler. *)
Definition message_of {W} (ex : Thrown) : Async W string :=
  match ex with
  | an_Error e => ret (error_message e)
  | thrown_null =>
      throw (TypeError "Cannot read properties of null (reading 'message')")
  | thrown_undefined =>
      throw (TypeError "Cannot read properties of undefined (reading 'message')")
  end.

(* ------------------------------------------------------------------ *)
(** ** Numbers in template literals                                   *)
(* ------------------------------------------------------------------ *)

(** An identifier is a Number holding an integer, kept as that integer.
    An integer that no double equals stands for the double nearest to
    it, as a literal would. *)
Definition decimal (n : Z) : string := NilZero.string_of_int (Z.to_int n).

(** The Number nearest to a non-negative integer [m]: [m] itself below
    2^53, else [m] rounded to 53 significant bits, ties to even. [None]
    is Infinity. *)
Definition nearest_Number (m : Z) : option Z :=
  if m <? 2 ^ 53 then Some m
  else
    let e := Z.log2 m - 52 in
    let q := Z.shiftr m e in
    let r := m - Z.shiftl q e in
    let half := Z.shiftl 1 (e - 1) in
    let q' := if (half <? r) || ((r =? half) && Z.odd q) then q + 1 else q in
    let x := Z.shiftl q' e in
    if x <? 2 ^ 1024 then Some x else None.

(** Number::toString (ECMAScript 6.1.6.1.20) writes a Number [x] with
    the integers [n], [k], [s] for which [s] has [k] digits, the decimal
    [s * 10^(n-k)] has the Number value [x], and [k] is as small as
    possible; of several such [s], the one nearest to [x].
    [candidates x n k] are the [s] of [k] digits next to [x / 10^(n-k)]
    that do. *)
Definition candidates (x n k : Z) : list (Z * Z) :=
  let p := 10 ^ (n - k) in
  let lo := x / p in
  filter (fun sn =>
            let s := fst sn in
            (10 ^ (k - 1) <=? s) && (s <? 10 ^ k)
            && match nearest_Number (s * p) with
               | Some y => y =? x
               | None => false
               end)
         [(lo, n); (lo + 1, n)].

(** Of two candidates [(s, n, s * 10^(n-k))], the nearer to [x]; the
    even [s] when both are as near. *)
Definition closer (x : Z) (a b : Z * Z * Z) : Z * Z * Z :=
  let da := Z.abs (snd a - x) in
  let db := Z.abs (snd b - x) in
  if db <? da then b
  else if (db =? da) && Z.even (fst (fst b)) && negb (Z.even (fst (fst a))) then b
  else a.

(** [(s, n, k)] for [x] of [d] digits, trying [k], [k + 1], ...; 17
    digits always suffice for a double. *)
Fixpoint shortest (fuel : nat) (x d k : Z) : Z * Z * Z :=
  match fuel with
  | O => (x, d, d)
  | S fuel' =>
      let found :=
        ((if k <=? d then candidates x d k else [])
         ++ (if k <=? d + 1 then candidates x (d + 1) k else []))%list in
      match map (fun sn => (fst sn, snd sn, fst sn * 10 ^ (snd sn - k))) found with
      | [] => shortest fuel' x d (k + 1)
      | c :: cs =>
          let best := fold_left (closer x) cs c in
          (fst (fst best), snd (fst best), k)
      end
  end.

(** Up to [n = 21] the digits of [s] and [n - k] zeros; beyond, the
    exponent form. *)
Definition Number_toString (x : Z) : string :=
  let d := Z.of_nat (String.length (decimal x)) in
  let '(s, n, k) := shortest 17 x d 1 in
  if n <=? 21 then
    decimal s ++ String.concat "" (repeat "0" (Z.to_nat (n - k)))
  else
    match decimal s with
    | String c rest =>
        String c (if k =? 1 then "" else "." ++ rest) ++ "e+" ++ decimal (n - 1)
    | EmptyString => ""
    end.

(** [`${n}`] *)
Definition string_of_number (n : Z) : string :=
  if n =? 0 then "0"
  else
    (if n <? 0 then "-" else "")
      ++ match nearest_Number (Z.abs n) with
         | Some x => Number_toString x
         | None => "Infinity"
         end.
Arguments string_of_number : simpl never.

(* ------------------------------------------------------------------ *)
(** ** http-status-codes                                              *)
(* ------------------------------------------------------------------ *)

Module StatusCodes.
Definition OK : Z := 200.
Definition CREATED : Z := 201.
Definition NO_CONTENT : Z := 204.
Definition BAD_REQUEST : Z := 400.
Definition NOT_FOUND : Z := 404.
Definition CONFLICT : Z := 409.
Definition INTERNAL_SERVER_ERROR : Z := 500.
End StatusCodes.

(* ------------------------------------------------------------------ *)
(** ** The User entity (userModel.ts)                                 *)
(* ------------------------------------------------------------------ *)

(** Timestamps are [Date]s, kept as their time value in milliseconds.
    The driver hands TIMESTAMP columns over as [Date]s already, and
    [new Date(d)] of a [Date] copies its time value. *)
Definition Date : Type := Z.
Definition new_Date (value : Date) : Date := value.

(** [age] is declared [number], but the column is nullable and
    CreateUserSchema leaves it optional: [None] is NULL / undefined. *)
Record User := mkUser {
  id : Z;
  name : string;
  email : string;
  age : option Z;
  createdAt : Date;
  updatedAt : Date
}.

(** [Omit<User, "id" | "createdAt" | "updatedAt">] *)
Record UserData := mkUserData {
  data_name : string;
  data_email : string;
  data_age : option Z
}.

(** [Partial<Omit<User, ...>>]: [None] is [undefined]. *)
Record PartialUserData := mkPartial {
  partial_name : option string;
  partial_email : option string;
  partial_age : option Z
}.

(* ------------------------------------------------------------------ *)
(** ** The response envelope                                          *)
(* ------------------------------------------------------------------ *)

(** The values the services put in [responseObject]. *)
Inductive Payload : Type :=
| null
| a_user (u : User)
| some_users (us : list User).

Record ServiceResponse := mkServiceResponse {
  success : bool;
  message : string;
  responseObject : Payload;
  statusCode : Z
}.

Module ServiceResponse_.
(** Modelled from the spec: the class [ServiceResponse] of
    common/models/serviceResponse, whose source is not at hand.
    [success(message, payload, statusCode = 200)] sets the flag, and
    [failure(message, payload, statusCode)] clears it. [None] for the
    status is an omitted argument. *)
Definition success (message : string) (responseObject : Payload)
           (statusCode : option Z) : ServiceResponse :=
  mkServiceResponse true message responseObject
    (match statusCode with Some c => c | None => StatusCodes.OK end).

Definition failure (message : string) (responseObject : Payload)
           (statusCode : Z) : ServiceResponse :=
  mkServiceResponse false message responseObject statusCode.
End ServiceResponse_.

(* ------------------------------------------------------------------ *)
(** ** The repository as the service sees it                          *)
(* ------------------------------------------------------------------ *)

(** The service receives its repository through the constructor; any
    object with these five methods will do (the tests pass mocks).
    [S] is whatever state stands behind it. [findAllAsync] may resolve
    with [null] ([None]): the service guards against it. *)
Record Repository (S : Type) := mkRepository {
  findAllAsync : Async S (option (list User));
  findByIdAsync : Z -> Async S (option User);
  createAsync : UserData -> Async S User;
  updateAsync : Z -> PartialUserData -> Async S (option User);
  deleteAsync : Z -> Async S bool
}.

Inductive RepositoryCall : Type :=
| FindAllAsync
| FindByIdAsync (id : Z)
| CreateAsync (userData : UserData)
| UpdateAsync (id : Z) (userData : PartialUserData)
| DeleteAsync (id : Z).

(** What an observer of the service sees: each repository method it
    invokes, each rejection it gets back, each line it logs. *)
Inductive ServiceEvent : Type :=
| Invoked (c : RepositoryCall)
| Threw (c : RepositoryCall) (ex : Thrown)
| LoggerError (line : string).

Record ServiceWorld (S : Type) := mkWorld {
  repository : S;
  trace : list ServiceEvent
}.

Section Instrumentation.
Context {S : Type}.

(** [await this.userRepository.method(...)] *)
Definition await {A} (c : RepositoryCall) (method : Async S A)
  : Async (ServiceWorld S) A :=
  fun w =>
    match method (repository w) with
    | (Resolved a, s') =>
        (Resolved a, mkWorld s' (trace w ++ [Invoked c]))
    | (Rejected ex, s') =>
        (Rejected ex, mkWorld s' (trace w ++ [Invoked c; Threw c ex]))
    end.

(** [logger.error(line)] *)
Definition logger_error (line : string) : Async (ServiceWorld S) unit :=
  fun w => (Resolved tt, mkWorld (repository w) (trace w ++ [LoggerError line])).
End Instrumentation.

(* ------------------------------------------------------------------ *)
(** ** UserService (userService.ts, lines 8-125)                      *)
(* ------------------------------------------------------------------ *)

Module UserService.
Section Service.
Context {S : Type}.
Variable userRepository : Repository S.

Import ServiceResponse_.

(** [users.some(p)] on a value that may be [null]. *)
Definition users_some (users : option (list User)) (p : User -> bool)
  : Async (ServiceWorld S) bool :=
  match users with
  | Some us => ret (existsb p us)
  | None => throw (TypeError "Cannot read properties of null (reading 'some')")
  end.

Definition findAll : Async (ServiceWorld S) ServiceResponse :=
  try_catch
    (users <- await FindAllAsync (findAllAsync userRepository) ;;
     match users with
     | None | Some [] =>
         ret (failure "No Users found" null StatusCodes.NOT_FOUND)
     | Some us =>
         ret (success "Users found" (some_users us) None)
     end)
    (fun ex =>
       text <- message_of ex ;;
       logger_error ("Error finding all users: " ++ text) ;;;
       ret (failure "An error occurred while retrieving users." null
              StatusCodes.INTERNAL_SERVER_ERROR)).

Definition findById (id : Z) : Async (ServiceWorld S) ServiceResponse :=
  try_catch
    (user <- await (FindByIdAsync id) (findByIdAsync userRepository id) ;;
     match user with
     | None => ret (failure "User not found" null StatusCodes.NOT_FOUND)
     | Some u => ret (success "User found" (a_user u) None)
     end)
    (fun ex =>
       text <- message_of ex ;;
       logger_error ("Error finding user with id " ++ string_of_number id
                     ++ ": " ++ text) ;;;
       ret (failure "An error occurred while finding user." null
              StatusCodes.INTERNAL_SERVER_ERROR)).

Definition create (userData : UserData) : Async (ServiceWorld S) ServiceResponse :=
  try_catch
    (users <- await FindAllAsync (findAllAsync userRepository) ;;
     emailExists <- users_some users
                      (fun user => email user =? data_email userData)%string ;;
     if emailExists : bool then
       ret (failure "Email already in use" null StatusCodes.CONFLICT)
     else
       user <- await (CreateAsync userData) (createAsync userRepository userData) ;;
       ret (success "User created successfully" (a_user user)
              (Some StatusCodes.CREATED)))
    (fun ex =>
       text <- message_of ex ;;
       logger_error ("Error creating user: " ++ text) ;;;
       ret (failure "An error occurred while creating user." null
              StatusCodes.INTERNAL_SERVER_ERROR)).

(** [userData.email && userData.email !== existingUser.email]:
    [undefined] and the empty string are both falsy. *)
Definition email_is_changing (userData : PartialUserData) (existingUser : User)
  : bool :=
  match partial_email userData with
  | None => false
  | Some e => negb (e =? "")%string && negb (e =? email existingUser)%string
  end.

Definition update (id_ : Z) (userData : PartialUserData)
  : Async (ServiceWorld S) ServiceResponse :=
  try_catch
    (existingUser <- await (FindByIdAsync id_) (findByIdAsync userRepository id_) ;;
     match existingUser with
     | None => ret (failure "User not found" null StatusCodes.NOT_FOUND)
     | Some existingUser =>
         emailExists <-
           (if email_is_changing userData existingUser then
              users <- await FindAllAsync (findAllAsync userRepository) ;;
              users_some users
                (fun user =>
                   match partial_email userData with
                   | Some e => (email user =? e)%string && negb (id user =? id_)
                   | None => false
                   end)
            else ret false) ;;
         if emailExists : bool then
           ret (failure "Email already in use" null StatusCodes.CONFLICT)
         else
           updatedUser <- await (UpdateAsync id_ userData)
                            (updateAsync userRepository id_ userData) ;;
           match updatedUser with
           | None => ret (failure "Failed to update user" null
                            StatusCodes.INTERNAL_SERVER_ERROR)
           | Some u => ret (success "User updated successfully" (a_user u) None)
           end
     end)
    (fun ex =>
       text <- message_of ex ;;
       logger_error ("Error updating user with id " ++ string_of_number id_
                     ++ ": " ++ text) ;;;
       ret (failure "An error occurred while updating user." null
              StatusCodes.INTERNAL_SERVER_ERROR)).

Definition delete (id_ : Z) : Async (ServiceWorld S) ServiceResponse :=
  try_catch
    (existingUser <- await (FindByIdAsync id_) (findByIdAsync userRepository id_) ;;
     match existingUser with
     | None => ret (failure "User not found" null StatusCodes.NOT_FOUND)
     | Some _ =>
         deleted <- await (DeleteAsync id_) (deleteAsync userRepository id_) ;;
         if deleted : bool then
           ret (success "User deleted successfully" null
                  (Some StatusCodes.NO_CONTENT))
         else
           ret (failure "Failed to delete user" null
                  StatusCodes.INTERNAL_SERVER_ERROR)
     end)
    (fun ex =>
       text <- message_of ex ;;
       logger_error ("Error deleting user with id " ++ string_of_number id_
                     ++ ": " ++ text) ;;;
       ret (failure "An error occurred while deleting user." null
              StatusCodes.INTERNAL_SERVER_ERROR)).

(** The five operations, to speak of them all at once. *)
Inductive Operation : Type :=
| op_findAll
| op_findById (id : Z)
| op_create (userData : UserData)
| op_update (id : Z) (userData : PartialUserData)
| op_delete (id : Z).

Definition run (op : Operation) : Async (ServiceWorld S) ServiceResponse :=
  match op with
  | op_findAll => findAll
  | op_findById id_ => findById id_
  | op_create userData => create userData
  | op_update id_ userData => update id_ userData
  | op_delete id_ => delete id_
  end.

(** The message each operation's [catch] answers with. *)
Definition generic_message (op : Operation) : string :=
  match op with
  | op_findAll => "An error occurred while retrieving users."
  | op_findById _ => "An error occurred while finding user."
  | op_create _ => "An error occurred while creating user."
  | op_update _ _ => "An error occurred while updating user."
  | op_delete _ => "An error occurred while deleting user."
  end.
End Service.
End UserService.

(* ------------------------------------------------------------------ *)
(** ** The connection pool (mysql2) as the repository sees it         *)
(* ------------------------------------------------------------------ *)

(** Values bound to the [?] placeholders. [pool.query] escapes
    [undefined] and [null] alike as NULL. *)
Inductive SqlValue : Type :=
| SqlNull
| SqlNumber (n : Z)
| SqlString (s : string).

(** The first component of what [pool.query] resolves with: an array of
    rows for a SELECT, a header for INSERT, UPDATE and DELETE. *)
Inductive QueryResult : Type :=
| RowsResult (rows : list User)
| ResultSetHeader (insertId affectedRows : Z).

(** [D] is the state of the database behind the pool. *)
Record Pool (D : Type) := mkPool {
  pool_query : string -> list SqlValue -> Async D QueryResult
}.

(** The repository's world: the database, the statements issued so
    far, and the lines the repository logged. *)
Record RepositoryWorld (D : Type) := mkRepositoryWorld {
  database : D;
  issued : list (string * list SqlValue);
  logged : list string
}.

(* ------------------------------------------------------------------ *)
(** ** UserRepository (userService.ts, lines 129-244)                 *)
(* ------------------------------------------------------------------ *)

Module UserRepository.
Section Repository.
Context {D : Type}.
Variable pool : Pool D.

Definition query (sql : string) (values : list SqlValue)
  : Async (RepositoryWorld D) QueryResult :=
  fun w =>
    let (r, d') := pool_query pool sql values (database w) in
    (r, mkRepositoryWorld d' (issued w ++ [(sql, values)]) (logged w)).

Definition logger_error (line : string) : Async (RepositoryWorld D) unit :=
  fun w => (Resolved tt,
            mkRepositoryWorld (database w) (issued w) (logged w ++ [line])).

(** [{ ...user, createdAt: new Date(user.createdAt),
       updatedAt: new Date(user.updatedAt) }] *)
Definition with_dates (user : User) : User :=
  mkUser (id user) (name user) (email user) (age user)
         (new_Date (createdAt user)) (new_Date (updatedAt user)).

(** [(result as any).insertId] and [.affectedRows]: [undefined] on an
    array of rows. *)
Definition insertId_of (result : QueryResult) : option Z :=
  match result with
  | ResultSetHeader i _ => Some i
  | RowsResult _ => None
  end.

Definition affectedRows_of (result : QueryResult) : option Z :=
  match result with
  | ResultSetHeader _ n => Some n
  | RowsResult _ => None
  end.

Definition bind_number (n : option Z) : SqlValue :=
  match n with Some n => SqlNumber n | None => SqlNull end.

Definition findAllAsync : Async (RepositoryWorld D) (list User) :=
  try_catch
    (rows <- query "SELECT * FROM users" [] ;;
     match rows with
     | RowsResult rows => ret (map with_dates rows)
     | ResultSetHeader _ _ => throw (TypeError "rows.map is not a function")
     end)
    (fun error =>
       text <- message_of error ;;
       logger_error ("Error finding all users: " ++ text) ;;;
       throw error).

(** [users[0]] of something without rows is [undefined], and reading
    [createdAt] from it raises. *)
Definition first_row_with_dates (rows : QueryResult)
  : Async (RepositoryWorld D) User :=
  match rows with
  | RowsResult (user :: _) => ret (with_dates user)
  | _ => throw (TypeError
                  "Cannot read properties of undefined (reading 'createdAt')")
  end.

Definition findByIdAsync (id_ : Z) : Async (RepositoryWorld D) (option User) :=
  try_catch
    (rows <- query "SELECT * FROM users WHERE id = ?" [SqlNumber id_] ;;
     match rows with
     | RowsResult [] => ret None
     | _ => user <- first_row_with_dates rows ;; ret (Some user)
     end)
    (fun error =>
       text <- message_of error ;;
       logger_error ("Error finding user by id: " ++ text) ;;;
       throw error).

Definition createAsync (user : UserData) : Async (RepositoryWorld D) User :=
  try_catch
    (result <- query "INSERT INTO users (name, email, age) VALUES (?, ?, ?)"
                 [SqlString (data_name user); SqlString (data_email user);
                  bind_number (data_age user)] ;;
     let id_ := insertId_of result in
     rows <- query "SELECT * FROM users WHERE id = ?" [bind_number id_] ;;
     first_row_with_dates rows)
    (fun error =>
       text <- message_of error ;;
       logger_error ("Error creating user: " ++ text) ;;;
       throw error).

(** The SET list and its values, in the order the three [if]s push. *)
Definition updateFields (user : PartialUserData) : list string :=
  (match partial_name user with Some _ => ["name = ?"] | None => [] end)
  ++ (match partial_email user with Some _ => ["email = ?"] | None => [] end)
  ++ (match partial_age user with Some _ => ["age = ?"] | None => [] end).

Definition values (user : PartialUserData) : list SqlValue :=
  (match partial_name user with Some n => [SqlString n] | None => [] end)
  ++ (match partial_email user with Some e => [SqlString e] | None => [] end)
  ++ (match partial_age user with Some a => [SqlNumber a] | None => [] end).

(** Both [return this.findByIdAsync(id)] hand the promise back without
    awaiting it, so its rejection passes the [catch] by: the [try]
    block yields the computation still to run. *)
Definition updateAsync (id_ : Z) (user : PartialUserData)
  : Async (RepositoryWorld D) (option User) :=
  returned <-
    try_catch
      (if (Z.of_nat (List.length (updateFields user)) =? 0) then
         ret (findByIdAsync id_)
       else
         result <- query ("UPDATE users SET "
                            ++ String.concat ", " (updateFields user)
                            ++ " WHERE id = ?")
                     (values user ++ [SqlNumber id_]) ;;
         match affectedRows_of result with
         | Some 0 => ret (ret None)
         | _ => ret (findByIdAsync id_)
         end)
      (fun error =>
         text <- message_of error ;;
         logger_error ("Error updating user: " ++ text) ;;;
         throw error) ;;
  returned.

Definition deleteAsync (id_ : Z) : Async (RepositoryWorld D) bool :=
  try_catch
    (result <- query "DELETE FROM users WHERE id = ?" [SqlNumber id_] ;;
     ret (match affectedRows_of result with
          | Some n => 0 <? n
          | None => false
          end))
    (fun error =>
       text <- message_of error ;;
       logger_error ("Error deleting user: " ++ text) ;;;
       throw error).

(** [new UserRepository()], as handed to [new UserService(...)]. *)
Definition UserRepository : Repository (RepositoryWorld D) :=
  mkRepository
    (users <- findAllAsync ;; ret (Some users))
    findByIdAsync createAsync updateAsync deleteAsync.
End Repository.
End UserRepository.

(* ------------------------------------------------------------------ *)
(** ** httpHandlers: handleServiceResponse                            *)
(* ------------------------------------------------------------------ *)

(** The Express response object, as far as the handlers drive it: the
    status set by [status(code)] and the body handed to [send(body)]. *)
Record Response := mkResponse {
  res_statusCode : Z;
  res_body : option ServiceResponse
}.

Definition res_status (code : Z) (res : Response) : Response :=
  mkResponse code (res_body res).

Definition res_send (body : ServiceResponse) (res : Response) : Response :=
  mkResponse (res_statusCode res) (Some body).

Definition handleServiceResponse (serviceResponse : option ServiceResponse)
           (response : Response) : Response :=
  match serviceResponse with
  | None =>
      res_send
        (mkServiceResponse false
           "An unexpected error occurred: Service response is undefined"
           null StatusCodes.INTERNAL_SERVER_ERROR)
        (res_status StatusCodes.INTERNAL_SERVER_ERROR response)
  | Some serviceResponse =>
      res_send serviceResponse (res_status (statusCode serviceResponse) response)
  end.

(* ------------------------------------------------------------------ *)
(** ** zod (version 3), as far as the schemas use it                  *)
(* ------------------------------------------------------------------ *)

(** Request data as [express.json()] hands it over. A number is a
    double (a JSON number too large for one is an infinity), an object
    is the list of its entries, their keys distinct, and a string is
    kept as the UTF-8 bytes of its text. *)
#[local] Set Warnings "-register-all".
Inductive JSON : Type :=
| JNull
| JBoolean (b : bool)
| JNumber (x : PrimFloat.float)
| JString (s : string)
| JArray (items : list JSON)
| JObject (entries : list (string * JSON)).

(** What a byte of the UTF-8 text adds to [s.length], which counts
    UTF-16 code units: a continuation byte (10xxxxxx) adds none, the
    first byte of a four-byte sequence (11110xxx), a code point beyond
    U+FFFF, adds two, any other first byte adds one. *)
Definition code_units (byte : ascii) : nat :=
  let b := nat_of_ascii byte in
  if (b <? 128)%nat then 1%nat
  else if (b <? 192)%nat then 0%nat
  else if (b <? 240)%nat then 1%nat
  else 2%nat.

(** [s.length] *)
Fixpoint utf16_length (s : string) : nat :=
  match s with
  | EmptyString => 0%nat
  | String byte rest => (code_units byte + utf16_length rest)%nat
  end.

(** [Number.isInteger(x)]: finite, and with no fractional part. *)
Definition Number_isInteger (x : PrimFloat.float) : bool :=
  match FloatOps.Prim2SF x with
  | SpecFloat.S754_zero _ => true
  | SpecFloat.S754_finite _ m e => (0 <=? e) || (Z.pos m mod 2 ^ (- e) =? 0)
  | _ => false
  end.

Module zod.
(** [e.message] is all the handlers read of an issue. *)
Record ZodIssue := mkIssue { issue_message : string }.

Inductive ParseStatus : Type := valid | dirty | aborted.

(** What a schema's [_parse] leaves behind: the status, the output
    value ([None] is [undefined]) and the issues it added. *)
Record ParseReturn := mkParseReturn {
  status : ParseStatus;
  value : option JSON;
  issues : list ZodIssue
}.

(** A schema is its parse function; [None] is an [undefined] input. *)
Definition ZodType : Type := option JSON -> ParseReturn.

Definition OK (v : option JSON) : ParseReturn := mkParseReturn valid v [].

Definition INVALID (message : string) : ParseReturn :=
  mkParseReturn aborted None [mkIssue message].

Definition getParsedType (data : JSON) : string :=
  match data with
  | JNull => "null"
  | JBoolean _ => "boolean"
  | JNumber x => if PrimFloat.is_nan x then "nan" else "number"
  | JString _ => "string"
  | JArray _ => "array"
  | JObject _ => "object"
  end.

(** The default message of an [invalid_type] issue. *)
Definition invalid_type (expected : string) (input : option JSON)
  : ParseReturn :=
  match input with
  | None => INVALID "Required"
  | Some data =>
      INVALID ("Expected " ++ expected ++ ", received " ++ getParsedType data)
  end.

(** A check passes or adds an issue with its message; a failed check
    leaves the value dirty but does not abort. *)
Definition run_checks {A} (checks : list (A -> option string)) (data : A)
  : list ZodIssue :=
  flat_map (fun check =>
              match check data with
              | Some message => [mkIssue message]
              | None => []
              end) checks.

Definition checked (v : JSON) (found : list ZodIssue) : ParseReturn :=
  mkParseReturn (match found with [] => valid | _ => dirty end) (Some v) found.

(** [z.string()] with its checks, and [z.number()] with its checks. *)
Definition string_ (checks : list (string -> option string)) : ZodType :=
  fun input =>
    match input with
    | Some (JString s) => checked (JString s) (run_checks checks s)
    | _ => invalid_type "string" input
    end.

(** NaN has the parsed type [nan], not [number]. *)
Definition number_ (checks : list (PrimFloat.float -> option string)) : ZodType :=
  fun input =>
    match input with
    | Some (JNumber x) =>
        if PrimFloat.is_nan x then invalid_type "number" input
        else checked (JNumber x) (run_checks checks x)
    | _ => invalid_type "number" input
    end.

(** [.min(n, message)] on a string: [input.data.length < n] fails. *)
Definition min_length (n : Z) (message : string) : string -> option string :=
  fun s => if Z.of_nat (utf16_length s) <? n then Some message else None.

(** [.email(message)]: the library's pattern is a parameter. *)
Definition email_ (matches : string -> bool) (message : string)
  : string -> option string :=
  fun s => if matches s then None else Some message.

(** [.int()]: [Number.isInteger]. *)
Definition int_ : PrimFloat.float -> option string :=
  fun x => if Number_isInteger x
           then None else Some "Expected integer, received float".

(** [.min(n, message)] on a number: [input.data < n] fails. *)
Definition min_value (n : PrimFloat.float) (message : string)
  : PrimFloat.float -> option string :=
  fun x => if PrimFloat.ltb x n then Some message else None.

(** [.optional()] *)
Definition optional (schema : ZodType) : ZodType :=
  fun input =>
    match input with
    | None => OK None
    | Some _ => schema input
    end.

Fixpoint lookup (key : string) (entries : list (string * JSON)) : option JSON :=
  match entries with
  | [] => None
  | (k, v) :: rest => if (k =? key)%string then Some v else lookup key rest
  end.

Definition merge_status (statuses : list ParseStatus) : ParseStatus :=
  if existsb (fun s => match s with aborted => true | _ => false end) statuses
  then aborted
  else if existsb (fun s => match s with dirty => true | _ => false end) statuses
       then dirty
       else valid.

(** [z.object(shape)]: every key of the shape is parsed (all their
    issues are kept), unknown keys of the input are stripped, and a
    key whose output is [undefined] is left out. *)
Definition object (shape : list (string * ZodType)) : ZodType :=
  fun input =>
    match input with
    | Some (JObject entries) =>
        let pairs :=
          map (fun field => (fst field, snd field (lookup (fst field) entries)))
              shape in
        let merged := merge_status (map (fun p => status (snd p)) pairs) in
        mkParseReturn merged
          (match merged with
           | aborted => None
           | _ => Some (JObject
                          (flat_map (fun p =>
                                       match value (snd p) with
                                       | Some v => [(fst p, v)]
                                       | None => []
                                       end) pairs))
           end)
          (flat_map (fun p => issues (snd p)) pairs)
    | _ => invalid_type "object" input
    end.

(** [Object.keys(data)] of a parsed object. *)
Definition Object_keys (data : option JSON) : list string :=
  match data with
  | Some (JObject entries) => map fst entries
  | _ => []
  end.

(** [.refine(check, { message })]: skipped when the inner parse
    aborted, run on the inner output otherwise. *)
Definition refine (schema : ZodType) (check : option JSON -> bool)
           (message : string) : ZodType :=
  fun input =>
    let inner := schema input in
    match status inner with
    | aborted => inner
    | _ =>
        if check (value inner) then inner
        else mkParseReturn dirty (value inner)
               (issues inner ++ [mkIssue message])
    end.

(** [schema.parse(data)]: the output, or a thrown [ZodError] with
    its [errors]. *)
Inductive ParseResult : Type :=
| Parsed (output : option JSON)
| ZodError (errors : list ZodIssue).

Definition parse (schema : ZodType) (data : JSON) : ParseResult :=
  let result := schema (Some data) in
  match status result with
  | valid => Parsed (value result)
  | _ => ZodError (issues result)
  end.
End zod.

(* ------------------------------------------------------------------ *)
(** ** httpHandlers: validateRequest                                  *)
(* ------------------------------------------------------------------ *)

Record Request := mkRequest {
  req_body : JSON;
  req_query : JSON;
  req_params : JSON
}.

(** [next] stands for the rest of the route: the controller. *)
Definition validateRequest (schema : zod.ZodType)
           (req : Request) (res : Response) (next : Request -> Response -> Response)
  : Response :=
  match zod.parse schema
          (JObject [("body", req_body req); ("query", req_query req);
                    ("params", req_params req)]) with
  | zod.Parsed _ => next req res
  | zod.ZodError errors =>
      let errorMessage :=
        "Invalid input: "
          ++ String.concat ", " (map zod.issue_message errors) in
      let statusCode := StatusCodes.BAD_REQUEST in
      let serviceResponse := ServiceResponse_.failure errorMessage null statusCode in
      handleServiceResponse (Some serviceResponse) res
  end.

(* ------------------------------------------------------------------ *)
(** ** userModel: the request schemas (userController.ts, 59-90)      *)
(* ------------------------------------------------------------------ *)

Module userModel.
Section Schemas.
(** [commonValidations.id] lives in common/utils/commonValidation,
    which is not at hand: any schema may stand for it. *)
Variable commonValidations_id : zod.ZodType.
(** The pattern behind [.email()]. *)
Variable is_email : string -> bool.

Import zod.

Definition GetUserSchema : ZodType :=
  object [("params", object [("id", commonValidations_id)])].

Definition CreateUserSchema : ZodType :=
  object
    [("body",
      object
        [("name", string_ [min_length 2 "Name must be at least 2 characters"]);
         ("email", string_ [email_ is_email "Invalid email format"]);
         ("age", optional
                   (number_ [int_; min_value PrimFloat.zero
                                     "Age must be a positive number"]))])].

Definition UpdateUserSchema : ZodType :=
  object
    [("params", object [("id", commonValidations_id)]);
     ("body",
      refine
        (object
           [("name", optional
                       (string_ [min_length 2 "Name must be at least 2 characters"]));
            ("email", optional
                        (string_ [email_ is_email "Invalid email format"]));
            ("age", optional
                      (number_ [int_; min_value PrimFloat.zero
                                        "Age must be a positive number"]))])
        (fun data => 0 <? Z.of_nat (List.length (Object_keys data)))
        "At least one field must be provided for update")].

Definition DeleteUserSchema : ZodType :=
  object [("params", object [("id", commonValidations_id)])].
End Schemas.
End userModel.

(* ------------------------------------------------------------------ *)
(** ** The [users] table behind the pool (database.ts, lines 36-43)   *)
(* ------------------------------------------------------------------ *)

(** A model of the server for the statements the repository issues:
<<
   CREATE TABLE IF NOT EXISTS users (
     id INT AUTO_INCREMENT PRIMARY KEY,
     name VARCHAR(100) NOT NULL,
     email VARCHAR(100) NOT NULL UNIQUE,
     age INT,
     createdAt TIMESTAMP DEFAULT CURRENT_TIMESTAMP,
     updatedAt TIMESTAMP DEFAULT CURRENT_TIMESTAMP ON UPDATE CURRENT_TIMESTAMP)
>>
    Any other statement is refused. The passage of time is left to the
    environment: [CURRENT_TIMESTAMP] is a field of the state. *)
Module MySQL.
Record Database := mkDatabase {
  users : list User;
  AUTO_INCREMENT : Z;
  CURRENT_TIMESTAMP : Date
}.

Inductive Column : Type := col_name | col_email | col_age.

Fixpoint strip_prefix (p s : string) : option string :=
  match p with
  | EmptyString => Some s
  | String a p' =>
      match s with
      | String b s' => if Ascii.eqb a b then strip_prefix p' s' else None
      | EmptyString => None
      end
  end.

Definition parse_assignment (s : string) : option (Column * string) :=
  match strip_prefix "name = ?" s with
  | Some rest => Some (col_name, rest)
  | None =>
      match strip_prefix "email = ?" s with
      | Some rest => Some (col_email, rest)
      | None =>
          match strip_prefix "age = ?" s with
          | Some rest => Some (col_age, rest)
          | None => None
          end
      end
  end.

(** [col = ?, col = ? WHERE id = ?]: the columns assigned. *)
Fixpoint parse_set (fuel : nat) (s : string) : option (list Column) :=
  match fuel with
  | O => None
  | S fuel' =>
      match parse_assignment s with
      | None => None
      | Some (c, rest) =>
          match strip_prefix ", " rest with
          | Some rest' =>
              match parse_set fuel' rest' with
              | Some cs => Some (c :: cs)
              | None => None
              end
          | None =>
              if (rest =? " WHERE id = ?")%string then Some [c] else None
          end
      end
  end.

Definition parse_update (sql : string) : option (list Column) :=
  match strip_prefix "UPDATE users SET " sql with
  | Some rest => parse_set (String.length rest) rest
  | None => None
  end.

Definition set_column (c : Column) (v : SqlValue) : option (User -> User) :=
  match c, v with
  | col_name, SqlString s =>
      Some (fun r => mkUser (id r) s (email r) (age r) (createdAt r) (updatedAt r))
  | col_email, SqlString s =>
      Some (fun r => mkUser (id r) (name r) s (age r) (createdAt r) (updatedAt r))
  | col_age, SqlNumber a =>
      Some (fun r => mkUser (id r) (name r) (email r) (Some a)
                       (createdAt r) (updatedAt r))
  | col_age, SqlNull =>
      Some (fun r => mkUser (id r) (name r) (email r) None
                       (createdAt r) (updatedAt r))
  | _, _ => None
  end.

Fixpoint set_columns (cols : list Column) (vals : list SqlValue)
  : option (User -> User) :=
  match cols, vals with
  | [], [] => Some (fun r => r)
  | c :: cs, v :: vs =>
      match set_column c v, set_columns cs vs with
      | Some f, Some g => Some (fun r => g (f r))
      | _, _ => None
      end
  | _, _ => None
  end.

Definition same_age (a b : option Z) : bool :=
  match a, b with
  | Some x, Some y => x =? y
  | None, None => true
  | _, _ => false
  end.

(** ON UPDATE CURRENT_TIMESTAMP: refreshed when a column changed. *)
Definition on_update (now : Date) (old new : User) : User :=
  if ((name old =? name new)%string && (email old =? email new)%string
      && same_age (age old) (age new))%bool
  then new
  else mkUser (id new) (name new) (email new) (age new) (createdAt new) now.

Section Server.
(** What makes the server refuse to store a row next to the rows of
    the table (a duplicate under the collation of the UNIQUE index, a
    value too long or out of range): left to the server. *)
Variable refuses : list User -> User -> option Error.

Definition unsupported : Error :=
  mkError "Error" "You have an error in your SQL syntax".

Definition header (insertId affectedRows : Z) (db : Database)
  : Outcome QueryResult * Database :=
  (Resolved (ResultSetHeader insertId affectedRows), db).

Definition insert (name_ email_ : string) (age_ : option Z) (db : Database)
  : Outcome QueryResult * Database :=
  let row := mkUser (AUTO_INCREMENT db) name_ email_ age_
                    (CURRENT_TIMESTAMP db) (CURRENT_TIMESTAMP db) in
  match refuses (users db) row with
  | Some e => (Rejected e, db)
  | None =>
      header (AUTO_INCREMENT db) 1
        (mkDatabase (users db ++ [row]) (AUTO_INCREMENT db + 1)
           (CURRENT_TIMESTAMP db))
  end.

(** The pool connects with the driver's default flags, FOUND_ROWS
    among them: [affectedRows] of an UPDATE counts the rows matched. *)
Definition update_where_id (set : User -> User) (id_ : Z) (db : Database)
  : Outcome QueryResult * Database :=
  let matched := filter (fun r => id r =? id_) (users db) in
  match flat_map (fun r => match refuses (users db) (set r) with
                           | Some e => [e]
                           | None => []
                           end) matched with
  | e :: _ => (Rejected e, db)
  | [] =>
      header 0 (Z.of_nat (List.length matched))
        (mkDatabase
           (map (fun r => if id r =? id_
                          then on_update (CURRENT_TIMESTAMP db) r (set r)
                          else r) (users db))
           (AUTO_INCREMENT db) (CURRENT_TIMESTAMP db))
  end.

Definition delete_where_id (id_ : Z) (db : Database)
  : Outcome QueryResult * Database :=
  header 0 (Z.of_nat (List.length (filter (fun r => id r =? id_) (users db))))
    (mkDatabase (filter (fun r => negb (id r =? id_)) (users db))
       (AUTO_INCREMENT db) (CURRENT_TIMESTAMP db)).

Definition select_where_id (v : SqlValue) (db : Database)
  : Outcome QueryResult * Database :=
  match v with
  | SqlNumber id_ =>
      (Resolved (RowsResult (filter (fun r => id r =? id_) (users db))), db)
  | SqlNull => (Resolved (RowsResult []), db)
  | SqlString _ => (Rejected unsupported, db)
  end.

Definition update (sql : string) (values : list SqlValue) (db : Database)
  : Outcome QueryResult * Database :=
  match parse_update sql with
  | None => (Rejected unsupported, db)
  | Some cols =>
      match set_columns cols (firstn (List.length cols) values),
            skipn (List.length cols) values with
      | Some set, [SqlNumber id_] => update_where_id set id_ db
      | _, _ => (Rejected unsupported, db)
      end
  end.

Definition query (sql : string) (values : list SqlValue)
  : Async Database QueryResult :=
  fun db =>
    if (sql =? "SELECT * FROM users")%string then
      match values with
      | [] => (Resolved (RowsResult (users db)), db)
      | _ => (Rejected unsupported, db)
      end
    else if (sql =? "SELECT * FROM users WHERE id = ?")%string then
      match values with
      | [v] => select_where_id v db
      | _ => (Rejected unsupported, db)
      end
    else if (sql =? "INSERT INTO users (name, email, age) VALUES (?, ?, ?)")%string then
      match values with
      | [SqlString n; SqlString e; SqlNumber a] => insert n e (Some a) db
      | [SqlString n; SqlString e; SqlNull] => insert n e None db
      | _ => (Rejected unsupported, db)
      end
    else if (sql =? "DELETE FROM users WHERE id = ?")%string then
      match values with
      | [SqlNumber id_] => delete_where_id id_ db
      | _ => (Rejected unsupported, db)
      end
    else update sql values db.

Definition pool : Pool Database := mkPool query.
End Server.
End MySQL.

(** A row before an update of [id_] with [user] and the same row after
    it: identifier and creation time stay, every field the update does
    not supply stays, and a row with another identifier stays whole. *)
Definition kept (id_ : Z) (user : PartialUserData) (r r' : User) : Prop :=
  id r' = id r
  /\ createdAt r' = createdAt r
  /\ (partial_name user = None -> name r' = name r)
  /\ (partial_email user = None -> email r' = email r)
  /\ (partial_age user = None -> age r' = age r)
  /\ (id r <> id_ -> r' = r).

(* ------------------------------------------------------------------ *)
(** ** Mocks, as the tests build them                                  *)
(* ------------------------------------------------------------------ *)

Module mocks.
(** [vi.fn().mockResolvedValue(v)] for each method. *)
Definition mockResolvedValue {A} (v : A) : Async unit A := ret v.

(** [vi.fn().mockRejectedValue(new Error(message))] *)
Definition mockRejectedValue {A} (message : string) : Async unit A :=
  throw (mkError "Error" message).

Definition mockRepository (all : option (list User)) (byId : option User)
           (created : User) (updated : option User) (deleted : bool)
  : Repository unit :=
  mkRepository (mockResolvedValue all)
               (fun _ => mockResolvedValue byId)
               (fun _ => mockResolvedValue created)
               (fun _ _ => mockResolvedValue updated)
               (fun _ => mockResolvedValue deleted).

(** A pool whose SELECT finds [row] and whose other statements report
    [affected] rows. *)
Definition mockPool (row : User) (affected : Z) : Pool unit :=
  mkPool (fun sql _ =>
            if String.prefix "SELECT" sql
            then ret (RowsResult [row])
            else ret (ResultSetHeader 0 affected)).

(** Every method rejects, as with [mockRejectedValue(new Error(...))]. *)
Definition rejectingRepository (message : string) : Repository unit :=
  mkRepository (mockRejectedValue message)
               (fun _ => mockRejectedValue message)
               (fun _ => mockRejectedValue message)
               (fun _ _ => mockRejectedValue message)
               (fun _ => mockRejectedValue message).

(** Every method rejects with [ex], as with [mockRejectedValue(null)]. *)
Definition throwingRepository (ex : Thrown) : Repository unit :=
  mkRepository (throw ex) (fun _ => throw ex) (fun _ => throw ex)
               (fun _ _ => throw ex) (fun _ => throw ex).

(** A pool whose every statement rejects. *)
Definition rejectingPool (message : string) : Pool unit :=
  mkPool (fun _ _ => mockRejectedValue message).

(** A pool that takes writes, reporting [affected] rows, and whose
    SELECT rejects. *)
Definition unreadablePool (affected : Z) (message : string) : Pool unit :=
  mkPool (fun sql _ =>
            if String.prefix "SELECT" sql
            then mockRejectedValue message
            else ret (ResultSetHeader 0 affected)).

Definition alice : User := mkUser 1 "Alice" "alice@example.com" (Some 42) 0 0.
Definition bob : User := mkUser 2 "Bob" "bob@example.com" (Some 21) 0 0.
Definition mockUsers : list User := [alice; bob].
Definition charlie : User := mkUser 3 "Charlie" "charlie@example.com" (Some 30) 0 0.

(** A stand-in for the pattern behind [.email()]: a string with an [@]
    in it. *)
Fixpoint has_at (s : string) : bool :=
  match s with
  | EmptyString => false
  | String c rest => Ascii.eqb c "@" || has_at rest
  end.

(** A controller that answers with the envelope of a found user. *)
Definition found_alice (_ : Request) (res : Response) : Response :=
  handleServiceResponse (Some (ServiceResponse_.success "User found" (a_user alice) None)) res.


(** A server that enforces the UNIQUE index on [email], comparing
    character for character. *)
Definition unique_email : list User -> User -> option Error :=
  fun rows row =>
    if existsb (fun other => (email other =? email row)%string
                             && negb (id other =? id row)) rows
    then Some (mkError "Error" "Duplicate entry for key 'users.email'")
    else None.

(** A server that refuses nothing. *)
Definition lenient : list User -> User -> option Error := fun _ _ => None.

Definition table (rows : list User) : ServiceWorld (RepositoryWorld MySQL.Database) :=
  mkWorld (mkRepositoryWorld (MySQL.mkDatabase rows 3 1000) [] []) [].
End mocks.

(* ------------------------------------------------------------------ *)
(** ** Connections: what database.ts and the seeder ask of the pool   *)
(* ------------------------------------------------------------------ *)

(** The rows a connection's [query] resolves with: rows of [{ count }]
    for the COUNT statement, anything [pool.query] yields otherwise. *)
Inductive ConnectionRows : Type :=
| CountRows (counts : list Z)
| UserRows (result : QueryResult).

(** [pool.getConnection()] may reject; the connection it resolves with
    answers [query] and is given back with [release()]. *)
Record ConnectionPool (D : Type) := mkConnectionPool {
  pool_getConnection : Async D unit;
  connection_query : string -> list SqlValue -> Async D ConnectionRows
}.

(** What the setup code does, in order: connections obtained and given
    back, statements sent, lines logged. *)
Inductive SetupEvent : Type :=
| Acquired
| Released
| Queried (sql : string) (values : list SqlValue)
| LoggedInfo (line : string)
| LoggedError (line : string).

Record SetupWorld (D : Type) := mkSetupWorld {
  setup_database : D;
  setup_events : list SetupEvent
}.

Definition newline : string := String (ascii_of_nat 10) "".

(** The template literal of [initializeDatabase], line by line. *)
Definition CREATE_TABLE_users : string :=
  newline
  ++ "      CREATE TABLE IF NOT EXISTS users (" ++ newline
  ++ "        id INT AUTO_INCREMENT PRIMARY KEY," ++ newline
  ++ "        name VARCHAR(100) NOT NULL," ++ newline
  ++ "        email VARCHAR(100) NOT NULL UNIQUE," ++ newline
  ++ "        age INT," ++ newline
  ++ "        createdAt TIMESTAMP DEFAULT CURRENT_TIMESTAMP," ++ newline
  ++ "        updatedAt TIMESTAMP DEFAULT CURRENT_TIMESTAMP ON UPDATE CURRENT_TIMESTAMP"
  ++ newline
  ++ "      )" ++ newline
  ++ "    ".

(** [for (const x of items) { await body(x) }] *)
Fixpoint for_of {W A} (items : list A) (body : A -> Async W unit) : Async W unit :=
  match items with
  | [] => ret tt
  | x :: rest => body x ;;; for_of rest body
  end.

(* ------------------------------------------------------------------ *)
(** ** database.ts, the seeder and the start of server.ts             *)
(* ------------------------------------------------------------------ *)

Module database.
Section Setup.
Context {D : Type}.
Variable pool : ConnectionPool D.

(** [await pool.getConnection()] *)
Definition getConnection : Async (SetupWorld D) unit :=
  fun w =>
    match pool_getConnection pool (setup_database w) with
    | (Resolved tt, d') => (Resolved tt, mkSetupWorld d' (setup_events w ++ [Acquired]))
    | (Rejected e, d') => (Rejected e, mkSetupWorld d' (setup_events w))
    end.

(** [await connection.query(sql, values)] *)
Definition query (sql : string) (values : list SqlValue)
  : Async (SetupWorld D) ConnectionRows :=
  fun w =>
    let (r, d') := connection_query pool sql values (setup_database w) in
    (r, mkSetupWorld d' (setup_events w ++ [Queried sql values])).

(** [connection.release()] *)
Definition release : Async (SetupWorld D) unit :=
  fun w => (Resolved tt, mkSetupWorld (setup_database w) (setup_events w ++ [Released])).

Definition logger_info (line : string) : Async (SetupWorld D) unit :=
  fun w => (Resolved tt,
            mkSetupWorld (setup_database w) (setup_events w ++ [LoggedInfo line])).

Definition logger_error (line : string) : Async (SetupWorld D) unit :=
  fun w => (Resolved tt,
            mkSetupWorld (setup_database w) (setup_events w ++ [LoggedError line])).

Definition testConnection : Async (SetupWorld D) bool :=
  try_catch
    (getConnection ;;;
     logger_info "Database connection established successfully" ;;;
     release ;;;
     ret true)
    (fun error =>
       text <- message_of error ;;
       logger_error ("Database connection failed: " ++ text) ;;;
       ret false).

Definition initializeDatabase : Async (SetupWorld D) unit :=
  try_catch
    (getConnection ;;;
     _ <- query CREATE_TABLE_users [] ;;
     logger_info "Database tables initialized successfully" ;;;
     release)
    (fun error =>
       text <- message_of error ;;
       logger_error ("Database initialization failed: " ++ text) ;;;
       throw error).

(** [(rows as any)[0].count]: [None] is [undefined], read from a row
    that has no [count]; with no first row the read raises. *)
Definition first_count (rows : ConnectionRows) : Async (SetupWorld D) (option Z) :=
  match rows with
  | CountRows (count :: _) => ret (Some count)
  | UserRows (RowsResult (_ :: _)) => ret None
  | _ => throw (TypeError "Cannot read properties of undefined (reading 'count')")
  end.

(** The sample user data of the seeder. *)
Definition users : list UserData :=
  [mkUserData "Alice Johnson" "alice@example.com" (Some 32);
   mkUserData "Bob Smith" "bob@example.com" (Some 45);
   mkUserData "Carol Williams" "carol@example.com" (Some 28);
   mkUserData "David Brown" "david@example.com" (Some 39);
   mkUserData "Eva Davis" "eva@example.com" (Some 24)].

Definition seedDatabase : Async (SetupWorld D) unit :=
  try_catch
    (getConnection ;;;
     rows <- query "SELECT COUNT(*) as count FROM users" [] ;;
     count <- first_count rows ;;
     if (match count with Some c => 0 <? c | None => false end) then
       logger_info "Database already seeded, skipping seed operation" ;;;
       release
     else
       for_of users
         (fun user =>
            _ <- query "INSERT INTO users (name, email, age) VALUES (?, ?, ?)"
                   [SqlString (data_name user); SqlString (data_email user);
                    UserRepository.bind_number (data_age user)] ;;
            ret tt) ;;;
       logger_info "Database seeded successfully with sample data" ;;;
       release)
    (fun error =>
       text <- message_of error ;;
       logger_error ("Database seeding failed: " ++ text) ;;;
       throw error).

(** The function server.ts calls on load, with [env.NODE_ENV]. *)
Definition initialize_on_start (NODE_ENV : string) : Async (SetupWorld D) unit :=
  try_catch
    (_ <- testConnection ;;
     initializeDatabase ;;;
     if (NODE_ENV =? "development")%string then seedDatabase else ret tt)
    (fun error =>
       text <- message_of error ;;
       logger_error ("Database setup failed: " ++ text) ;;;
       ret tt).
End Setup.
End database.

(** The [users] table behind a connection: the COUNT and CREATE TABLE
    statements next to those of [MySQL.query]. The table is there from
    the start, so CREATE TABLE IF NOT EXISTS changes nothing. *)
Module MySQLConnection.
Section Server.
Variable refuses : list User -> User -> option Error.

Definition connection_query (sql : string) (values : list SqlValue)
  : Async MySQL.Database ConnectionRows :=
  fun db =>
    if (sql =? "SELECT COUNT(*) as count FROM users")%string then
      match values with
      | [] => (Resolved (CountRows [Z.of_nat (List.length (MySQL.users db))]), db)
      | _ => (Rejected MySQL.unsupported, db)
      end
    else if (sql =? CREATE_TABLE_users)%string then
      match values with
      | [] => (Resolved (UserRows (ResultSetHeader 0 0)), db)
      | _ => (Rejected MySQL.unsupported, db)
      end
    else
      match MySQL.query refuses sql values db with
      | (Resolved result, db') => (Resolved (UserRows result), db')
      | (Rejected e, db') => (Rejected e, db')
      end.

Definition pool : ConnectionPool MySQL.Database :=
  mkConnectionPool (ret tt) connection_query.
End Server.
End MySQLConnection.

(** Pools for the setup code: one that hands out no connection, one
    whose connections reject every statement, and the [users] table
    with the given rows. *)
Module setup_mocks.
Definition noConnections (message : string) : ConnectionPool unit :=
  mkConnectionPool (mocks.mockRejectedValue message)
                   (fun _ _ => mocks.mockRejectedValue message).

Definition deafConnections (message : string) : ConnectionPool unit :=
  mkConnectionPool (ret tt) (fun _ _ => mocks.mockRejectedValue message).

Definition table (rows : list User) : SetupWorld MySQL.Database :=
  mkSetupWorld (MySQL.mkDatabase rows 1 1000) [].
End setup_mocks.

(* ================================================================== *)
(** * Properties                                                       *)
(* ================================================================== *)

Unset Implicit Arguments.

(** Unfolding the plumbing of an operation down to the repository
    calls it makes. *)
Ltac unfold_async :=
  unfold UserService.users_some in *;
  unfold try_catch, bind, await, message_of, logger_error, ret, throw in *;
  cbn [repository trace fst snd] in *.

Ltac unfold_service :=
  unfold UserService.run, UserService.findAll, UserService.findById,
    UserService.create, UserService.update, UserService.delete in *;
  unfold_async.

(** Case analysis on whatever the goal still matches on. *)
Ltac case_step :=
  match goal with
  | |- context [match ?x with _ => _ end] =>
      lazymatch x with
      | context [match _ with _ => _ end] => fail
      | _ => destruct x eqn:?
      end
  end.

(* ------------------------------------------------------------------ *)
(** ** The cases of userService.test.ts, replayed on the model        *)
(* ------------------------------------------------------------------ *)

Example findAll_returns_all_users :
  fst (UserService.findAll
         (mocks.mockRepository (Some mocks.mockUsers) None mocks.charlie None true)
         (mkWorld tt []))
  = Resolved (mkServiceResponse true "Users found" (some_users mocks.mockUsers) 200).
Proof. reflexivity. Qed.

Example findAll_null_is_not_found :
  fst (UserService.findAll
         (mocks.mockRepository None None mocks.charlie None true) (mkWorld tt []))
  = Resolved (mkServiceResponse false "No Users found" null 404).
Proof. reflexivity. Qed.

Example findById_handles_errors :
  UserService.findById (mocks.rejectingRepository "Database error") 1 (mkWorld tt [])
  = (Resolved (mkServiceResponse false "An error occurred while finding user." null 500),
     mkWorld tt [Invoked (FindByIdAsync 1);
                 Threw (FindByIdAsync 1) (mkError "Error" "Database error");
                 LoggerError "Error finding user with id 1: Database error"]).
Proof. reflexivity. Qed.

Example update_fails_when_nothing_is_updated :
  fst (UserService.update
         (mocks.mockRepository (Some mocks.mockUsers) (Some mocks.alice)
            mocks.charlie None true)
         1 (mkPartial (Some "Updated Name") None None) (mkWorld tt []))
  = Resolved (mkServiceResponse false "Failed to update user" null 500).
Proof. reflexivity. Qed.

Example delete_fails_when_nothing_is_deleted :
  fst (UserService.delete
         (mocks.mockRepository (Some mocks.mockUsers) (Some mocks.alice)
            mocks.charlie None false)
         1 (mkWorld tt []))
  = Resolved (mkServiceResponse false "Failed to delete user" null 500).
Proof. reflexivity. Qed.

(** The scenario of an update with [{ age: 40 }] only, on the table. *)
Example update_age_only :
  UserService.update (UserRepository.UserRepository (MySQL.pool mocks.unique_email))
    1 (mkPartial None None (Some 40)) (mocks.table mocks.mockUsers)
  = (Resolved (mkServiceResponse true "User updated successfully"
                 (a_user (mkUser 1 "Alice" "alice@example.com" (Some 40) 0 1000)) 200),
     mkWorld
       (mkRepositoryWorld
          (MySQL.mkDatabase
             [mkUser 1 "Alice" "alice@example.com" (Some 40) 0 1000; mocks.bob] 3 1000)
          [("SELECT * FROM users WHERE id = ?", [SqlNumber 1]);
           ("UPDATE users SET age = ? WHERE id = ?", [SqlNumber 40; SqlNumber 1]);
           ("SELECT * FROM users WHERE id = ?", [SqlNumber 1])]
          [])
       [Invoked (FindByIdAsync 1);
        Invoked (UpdateAsync 1 (mkPartial None None (Some 40)))]).
Proof. reflexivity. Qed.

(* ------------------------------------------------------------------ *)
(** ** JavaScript's corners, replayed on the model                    *)
(* ------------------------------------------------------------------ *)

(** [mockRejectedValue(undefined)]: the handler of [findById] raises
    while it builds its log line, so the call rejects and logs nothing. *)
Example findById_rejects_on_undefined :
  UserService.findById (mocks.throwingRepository thrown_undefined) 1 (mkWorld tt [])
  = (Rejected (TypeError "Cannot read properties of undefined (reading 'message')"),
     mkWorld tt [Invoked (FindByIdAsync 1); Threw (FindByIdAsync 1) thrown_undefined]).
Proof. reflexivity. Qed.

(** Template literals print a Number with the fewest digits that tell
    it apart, and in exponent form from 1e21 on. *)
Example large_numbers_in_template_literals :
  string_of_number 9007199254740991 = "9007199254740991"
  /\ string_of_number 9007199254740993 = "9007199254740992"
  /\ string_of_number 18446744073709551616 = "18446744073709552000"
  /\ string_of_number 1000000000000000000000 = "1e+21"
  /\ string_of_number (- 1180591620717411303424) = "-1.1805916207174113e+21".
Proof. repeat split; vm_compute; reflexivity. Qed.

(** A name of one character is refused even when its UTF-8 text takes
    two bytes (here U+00E9), and one of a single code point beyond
    U+FFFF (here U+1F600) is accepted: it takes two code units. *)
Example name_length_counts_code_units :
  let e_acute := String (ascii_of_nat 195) (String (ascii_of_nat 169) "") in
  let grinning := String (ascii_of_nat 240) (String (ascii_of_nat 159)
                    (String (ascii_of_nat 152) (String (ascii_of_nat 128) ""))) in
  let request name_ :=
    mkRequest (JObject [("name", JString name_); ("email", JString "a@b.c")])
      (JObject []) (JObject []) in
  validateRequest (userModel.CreateUserSchema mocks.has_at) (request e_acute)
    (mkResponse 200 None) mocks.found_alice
  = mkResponse 400
      (Some (ServiceResponse_.failure
               "Invalid input: Name must be at least 2 characters" null 400))
  /\ validateRequest (userModel.CreateUserSchema mocks.has_at) (request grinning)
       (mkResponse 200 None) mocks.found_alice
     = mocks.found_alice (request grinning) (mkResponse 200 None).
Proof. split; vm_compute; reflexivity. Qed.

(** An age too large for a double arrives as Infinity, which is a
    number but no integer; a negative zero is an integer not below 0. *)
Example ages_at_the_edges_of_the_doubles :
  let request age_ :=
    mkRequest (JObject [("name", JString "Test User"); ("email", JString "a@b.c");
                        ("age", JNumber age_)])
      (JObject []) (JObject []) in
  validateRequest (userModel.CreateUserSchema mocks.has_at)
    (request PrimFloat.infinity) (mkResponse 200 None) mocks.found_alice
  = mkResponse 400
      (Some (ServiceResponse_.failure
               "Invalid input: Expected integer, received float" null 400))
  /\ validateRequest (userModel.CreateUserSchema mocks.has_at)
       (request PrimFloat.nan) (mkResponse 200 None) mocks.found_alice
     = mkResponse 400
         (Some (ServiceResponse_.failure
                  "Invalid input: Expected number, received nan" null 400))
  /\ validateRequest (userModel.CreateUserSchema mocks.has_at)
       (request PrimFloat.neg_zero) (mkResponse 200 None) mocks.found_alice
     = mocks.found_alice (request PrimFloat.neg_zero) (mkResponse 200 None).
Proof. repeat split; vm_compute; reflexivity. Qed.

Lemma existsb_email_true (users : list User) (e : string) :
  (exists user, In user users /\ email user = e) ->
  existsb (fun user => (email user =? e)%string) users = true.
Proof.
  intros [user [Hin Heq]]. apply existsb_exists.
  exists user. split; [exact Hin | now apply String.eqb_eq].
Qed.

Lemma existsb_email_false (users : list User) (e : string) :
  (forall user, In user users -> email user <> e) ->
  existsb (fun user => (email user =? e)%string) users = false.
Proof.
  intros Hnone. induction users as [|u us IH]; [reflexivity|].
  cbn. rewrite IH by (intros; apply Hnone; now right).
  destruct (String.eqb_spec (email u) e) as [Heq|]; [|reflexivity].
  exfalso. apply (Hnone u); [now left | exact Heq].
Qed.

Lemma select_all_keeps_users (refuses : list User -> User -> option Error)
      (w : RepositoryWorld MySQL.Database) :
  UserRepository.findAllAsync (MySQL.pool refuses) w =
    (Resolved (map UserRepository.with_dates (MySQL.users (database w))),
     mkRepositoryWorld (database w)
       (issued w ++ [("SELECT * FROM users", [])]) (logged w)).
Proof. reflexivity. Qed.

Lemma with_dates_id (u : User) : UserRepository.with_dates u = u.
Proof. now destruct u. Qed.

Lemma map_with_dates (us : list User) : map UserRepository.with_dates us = us.
Proof.
  induction us as [|u us IH]; [reflexivity|].
  cbn [map]. now rewrite with_dates_id, IH.
Qed.

(** C1. [create] loads the full set and compares emails exactly. When
    some loaded user carries the email of the input, the answer is the
    failure envelope "Email already in use" with status 409, the only
    repository method invoked is [findAllAsync] and the repository is
    left as [findAllAsync] left it; over the [users] table no row is
    added. When no loaded user carries it, [createAsync] is invoked and
    the record it resolves with comes back in the success envelope
    "User created successfully" with status 201. *)
Theorem create_rejects_known_email_else_creates :
  (forall S (repo : Repository S) (userData : UserData) (w : ServiceWorld S)
          (users : list User) (s1 : S),
      findAllAsync repo (repository w) = (Resolved (Some users), s1) ->
      ((exists user, In user users /\ email user = data_email userData) ->
       UserService.create repo userData w =
         (Resolved (ServiceResponse_.failure "Email already in use" null StatusCodes.CONFLICT),
          mkWorld s1 (trace w ++ [Invoked FindAllAsync])))
      /\
      ((forall user, In user users -> email user <> data_email userData) ->
       forall (created : User) (s2 : S),
         createAsync repo userData s1 = (Resolved created, s2) ->
         UserService.create repo userData w =
           (Resolved (ServiceResponse_.success "User created successfully" (a_user created)
                        (Some StatusCodes.CREATED)),
            mkWorld s2 (trace w ++ [Invoked FindAllAsync;
                                    Invoked (CreateAsync userData)]))))
  /\
  (forall refuses (userData : UserData)
          (w : ServiceWorld (RepositoryWorld MySQL.Database)),
      (exists row, In row (MySQL.users (database (repository w)))
                   /\ email row = data_email userData) ->
      exists w',
        UserService.create (UserRepository.UserRepository (MySQL.pool refuses))
          userData w =
          (Resolved (ServiceResponse_.failure "Email already in use" null StatusCodes.CONFLICT), w')
        /\ MySQL.users (database (repository w'))
           = MySQL.users (database (repository w))).
Proof.
  split.
  - intros S repo userData w users s1 Hall. split.
    + intros Hdup. unfold_service. rewrite Hall.
      now rewrite (existsb_email_true _ _ Hdup).
    + intros Hfresh created s2 Hcreate. unfold_service. rewrite Hall.
      rewrite (existsb_email_false _ _ Hfresh). cbn.
      rewrite Hcreate. cbn. now rewrite <- app_assoc.
  - intros refuses userData w Hdup. unfold_service.
    cbn [findAllAsync UserRepository.UserRepository].
    unfold bind at 1. rewrite select_all_keeps_users, map_with_dates.
    unfold ret at 1. rewrite (existsb_email_true _ _ Hdup).
    eexists. split; reflexivity.
Qed.

Lemma create_rejects_known_email_else_creates_witness :
  let repo := mocks.mockRepository (Some mocks.mockUsers) None mocks.charlie None true in
  UserService.create repo (mkUserData "Duplicate" "alice@example.com" (Some 30))
    (mkWorld tt []) =
    (Resolved (ServiceResponse_.failure "Email already in use" null 409),
     mkWorld tt [Invoked FindAllAsync])
  /\ UserService.create repo (mkUserData "Charlie" "charlie@example.com" (Some 30))
       (mkWorld tt []) =
       (Resolved (ServiceResponse_.success "User created successfully" (a_user mocks.charlie) (Some 201)),
        mkWorld tt [Invoked FindAllAsync;
                    Invoked (CreateAsync
                               (mkUserData "Charlie" "charlie@example.com" (Some 30)))]).
Proof.
  intros repo. split.
  - apply (proj1 (proj1 create_rejects_known_email_else_creates unit repo
                    (mkUserData "Duplicate" "alice@example.com" (Some 30))
                    (mkWorld tt []) mocks.mockUsers tt eq_refl)).
    exists mocks.alice. split; [left; reflexivity | reflexivity].
  - apply (proj2 (proj1 create_rejects_known_email_else_creates unit repo
                    (mkUserData "Charlie" "charlie@example.com" (Some 30))
                    (mkWorld tt []) mocks.mockUsers tt eq_refl)).
    + intros user [<-|[<-|[]]]; discriminate.
    + reflexivity.
Defined.

(** The scan of [update] sees the other users only. *)
Lemma existsb_other_email_true (users : list User) (e : string) (id_ : Z) :
  (exists user, In user users /\ email user = e /\ id user <> id_) ->
  existsb (fun user => (email user =? e)%string && negb (id user =? id_)) users
  = true.
Proof.
  intros [user [Hin [Heq Hid]]]. apply existsb_exists.
  exists user. split; [exact Hin|].
  apply andb_true_iff. split; [now apply String.eqb_eq|].
  apply negb_true_iff. now apply Z.eqb_neq.
Qed.

Lemma email_is_changing_true (userData : PartialUserData) (existing : User)
      (e : string) :
  partial_email userData = Some e -> e <> "" -> e <> email existing ->
  UserService.email_is_changing userData existing = true.
Proof.
  intros He Hne Hdiff. unfold UserService.email_is_changing. rewrite He.
  apply andb_true_iff.
  split; apply negb_true_iff; now apply String.eqb_neq.
Qed.

Lemma email_is_changing_false (userData : PartialUserData) (existing : User) :
  partial_email userData = None
  \/ partial_email userData = Some (email existing)
  \/ partial_email userData = Some "" ->
  UserService.email_is_changing userData existing = false.
Proof.
  unfold UserService.email_is_changing.
  intros [->|[->| ->]]; [reflexivity| |reflexivity].
  rewrite String.eqb_refl. cbn. apply andb_false_r.
Qed.

(** X21. The email check of [update], for a target that exists. When
    the email supplied is not empty, differs from the target's and
    equals the email of a user with another identifier, the answer is
    the failure envelope "Email already in use" with status 409 and
    [updateAsync] is not invoked. The users are read at all only when
    the guard of line 82 holds: when the email is not supplied, equals
    the target's own or is the empty string, [findAllAsync] is not
    invoked and [updateAsync] is, right after the existence check, and
    the row it resolves with comes back as "User updated
    successfully". *)
Theorem update_checks_other_users_email :
  forall S (repo : Repository S) (id_ : Z) (userData : PartialUserData)
         (w : ServiceWorld S) (existingUser : User) (s1 : S),
    findByIdAsync repo id_ (repository w) = (Resolved (Some existingUser), s1) ->
    (forall (e : string) (users : list User) (s2 : S),
        partial_email userData = Some e ->
        e <> "" ->
        e <> email existingUser ->
        findAllAsync repo s1 = (Resolved (Some users), s2) ->
        (exists user, In user users /\ email user = e /\ id user <> id_) ->
        UserService.update repo id_ userData w =
          (Resolved (ServiceResponse_.failure "Email already in use" null StatusCodes.CONFLICT),
           mkWorld s2 (trace w ++ [Invoked (FindByIdAsync id_);
                                   Invoked FindAllAsync])))
    /\
    (partial_email userData = None
     \/ partial_email userData = Some (email existingUser)
     \/ partial_email userData = Some "" ->
     exists outcome rest,
       UserService.update repo id_ userData w =
         (outcome,
          mkWorld (snd (updateAsync repo id_ userData s1))
            (trace w ++ [Invoked (FindByIdAsync id_);
                         Invoked (UpdateAsync id_ userData)] ++ rest))
       /\ ~ In (Invoked FindAllAsync) rest
       /\ (forall updated,
              fst (updateAsync repo id_ userData s1) = Resolved (Some updated) ->
              outcome = Resolved (ServiceResponse_.success "User updated successfully"
                                    (a_user updated) None))).
Proof.
  intros S repo id_ userData w existingUser s1 Hfind. split.
  - intros e users s2 He Hne Hdiff Hall Hother.
    unfold_service. rewrite Hfind.
    rewrite (email_is_changing_true _ _ _ He Hne Hdiff). cbn.
    rewrite Hall, He. rewrite (existsb_other_email_true _ _ _ Hother).
    now rewrite <- app_assoc.
  - intros Hsame. unfold_service. rewrite Hfind.
    rewrite (email_is_changing_false _ _ Hsame). cbn.
    destruct (updateAsync repo id_ userData s1) as [[[updated|]|[e| |]] s2]; cbn;
      (eexists; eexists; split;
       [rewrite <- !app_assoc; cbn; reflexivity|];
       split;
       [intros Hin; repeat (destruct Hin as [Hin|Hin]; try discriminate Hin);
        contradiction
       |intros u Hu; first [now inversion Hu | discriminate Hu]]).
Qed.

Lemma update_checks_other_users_email_witness :
  let repo := mocks.mockRepository (Some mocks.mockUsers) (Some mocks.alice)
                mocks.charlie (Some mocks.alice) true in
  UserService.update repo 1 (mkPartial None (Some "bob@example.com") None)
    (mkWorld tt []) =
    (Resolved (ServiceResponse_.failure "Email already in use" null 409),
     mkWorld tt [Invoked (FindByIdAsync 1); Invoked FindAllAsync])
  /\ exists outcome rest,
      UserService.update repo 1 (mkPartial None (Some "alice@example.com") None)
        (mkWorld tt []) =
        (outcome,
         mkWorld tt ([Invoked (FindByIdAsync 1);
                      Invoked (UpdateAsync 1
                                 (mkPartial None (Some "alice@example.com") None))]
                       ++ rest))
      /\ ~ In (Invoked FindAllAsync) rest.
Proof.
  intros repo. split.
  - apply (proj1 (update_checks_other_users_email unit repo 1
                    (mkPartial None (Some "bob@example.com") None)
                    (mkWorld tt []) mocks.alice tt eq_refl)
             "bob@example.com" mocks.mockUsers tt eq_refl).
    + discriminate.
    + discriminate.
    + reflexivity.
    + exists mocks.bob. split; [right; left; reflexivity|].
      split; [reflexivity | discriminate].
  - destruct (proj2 (update_checks_other_users_email unit repo 1
                       (mkPartial None (Some "alice@example.com") None)
                       (mkWorld tt []) mocks.alice tt eq_refl)
                (or_intror (or_introl eq_refl)))
      as [outcome [rest [Hrun [Hscan _]]]].
    exists outcome, rest. split; [exact Hrun | exact Hscan].
Defined.


(** Every branch of every operation, down to what it settles with. *)
Ltac settle_service :=
  unfold_service; repeat (case_step; cbn [repository trace fst snd] in * ).

(** An event that is in a list of events written out. *)
Ltac event_present :=
  cbn [In]; solve [repeat first [left; reflexivity | right]].

(** A run whose events are written out threw [null] or [undefined]. *)
Ltac threw_nullish :=
  first [ exists thrown_null; split; [event_present | reflexivity]
        | exists thrown_undefined; split; [event_present | reflexivity] ].

(** C3, as the code has it. Each service operation resolves with an
    envelope and does not reject, whatever the repository does, as long
    as what a repository call throws is neither [null] nor [undefined].
    If any repository call it made threw, the envelope is the failure
    envelope with the operation's own generic message, a null payload
    and status 500: it is the same for every error, so nothing of the
    error's message is in it. *)
Theorem service_turns_errors_into_envelopes :
  forall S (repo : Repository S) (op : UserService.Operation) (w : ServiceWorld S),
  exists (outcome : Outcome ServiceResponse) (w' : ServiceWorld S)
         (events : list ServiceEvent),
    UserService.run repo op w = (outcome, w')
    /\ trace w' = (trace w ++ events)%list
    /\ ((forall c ex, In (Threw c ex) events -> nullish ex = false) ->
        exists response,
          outcome = Resolved response
          /\ (forall c ex, In (Threw c ex) events ->
                response = ServiceResponse_.failure (UserService.generic_message op) null
                             StatusCodes.INTERNAL_SERVER_ERROR)).
Proof.
  intros S repo op w.
  destruct op; settle_service;
    (do 3 eexists; split; [reflexivity|]; split;
     [cbn [trace]; rewrite <- ?app_assoc; reflexivity|];
     intros Hsafe;
     first
       [ eexists; split; [reflexivity|];
         intros call err Hin; cbn in Hin;
         repeat (destruct Hin as [Hin|Hin]; try discriminate Hin);
         try contradiction; reflexivity
       | exfalso;
         first [ assert (Hnull : nullish thrown_null = false)
                   by (eapply Hsafe; event_present)
               | assert (Hnull : nullish thrown_undefined = false)
                   by (eapply Hsafe; event_present) ];
         discriminate Hnull ]).
Qed.

Lemma service_turns_errors_into_envelopes_witness :
  fst (UserService.run (mocks.rejectingRepository "Database error")
         (UserService.op_findById 1) (mkWorld tt []))
  = Resolved (ServiceResponse_.failure "An error occurred while finding user." null 500).
Proof.
  destruct (service_turns_errors_into_envelopes unit
              (mocks.rejectingRepository "Database error")
              (UserService.op_findById 1) (mkWorld tt []))
    as [outcome [w' [events [Hrun [Htrace Hsafe]]]]].
  rewrite Hrun. cbn [fst].
  injection Hrun as _ Hw'. subst w'. cbn in Htrace. subst events.
  destruct Hsafe as [response [Houtcome Hthrew]].
  - intros c ex [H|[H|[H|[]]]]; try discriminate H.
    injection H as _ <-. reflexivity.
  - rewrite Houtcome. f_equal.
    apply (Hthrew (FindByIdAsync 1) (mkError "Error" "Database error")).
    right. left. reflexivity.
Defined.

(** C3 as worded fails when a repository call throws [null]: the
    handler of [findAll] reads [message] off it, which raises, so the
    operation rejects with that TypeError, logs nothing and answers
    with no envelope. *)
Lemma null_rejection_escapes_the_service :
  let repo := mocks.throwingRepository thrown_null in
  UserService.run repo UserService.op_findAll (mkWorld tt [])
  = (Rejected (TypeError "Cannot read properties of null (reading 'message')"),
     mkWorld tt [Invoked FindAllAsync; Threw FindAllAsync thrown_null])
  /\ ~ (exists response w',
           UserService.run repo UserService.op_findAll (mkWorld tt [])
           = (Resolved response, w')).
Proof.
  intros repo. split; [reflexivity|].
  intros [response [w' Hrun]]. discriminate Hrun.
Qed.

(** C8. In the envelope of every service operation a failure carries a
    null payload; for [findAll], [findById], [create] and [update] the
    payload is non-null exactly when the success flag is set, and for
    [delete] the payload is null on success as well. Every operation
    answers with such an envelope unless a repository call threw
    [null] or [undefined]. *)
Theorem payload_present_iff_success_except_delete :
  forall S (repo : Repository S) (op : UserService.Operation) (w : ServiceWorld S),
  exists (outcome : Outcome ServiceResponse) (w' : ServiceWorld S)
         (events : list ServiceEvent),
    UserService.run repo op w = (outcome, w')
    /\ trace w' = (trace w ++ events)%list
    /\ match outcome with
       | Resolved response =>
           (success response = false -> responseObject response = null)
           /\ match op with
              | UserService.op_delete _ => responseObject response = null
              | _ => responseObject response <> null <-> success response = true
              end
       | Rejected _ =>
           exists c ex, In (Threw c ex) events /\ nullish ex = true
       end.
Proof.
  intros S repo op w.
  destruct op; settle_service;
    (do 3 eexists; split; [reflexivity|]; split;
     [cbn [trace]; rewrite <- ?app_assoc; reflexivity|];
     first
       [ eexists; threw_nullish
       | cbn;
         split; [intros Hfailed; first [reflexivity | discriminate Hfailed]|];
         first [reflexivity
               | split; [intros Hpresent; first [reflexivity | now contradiction Hpresent]
                        | intros Hflag; first [discriminate | discriminate Hflag]]] ]).
Qed.

Lemma payload_present_iff_success_except_delete_witness :
  responseObject
    (match fst (UserService.run
                  (mocks.mockRepository None None mocks.charlie None true)
                  (UserService.op_findById 1) (mkWorld tt [])) with
     | Resolved response => response
     | Rejected _ => ServiceResponse_.success "" (a_user mocks.alice) None
     end) = null.
Proof.
  destruct (payload_present_iff_success_except_delete unit
              (mocks.mockRepository None None mocks.charlie None true)
              (UserService.op_findById 1) (mkWorld tt []))
    as [outcome [w' [events [Hrun [_ Hpayload]]]]].
  rewrite Hrun. cbn [fst].
  injection Hrun as Houtcome _. subst outcome.
  destruct Hpayload as [Hfailure _]. apply Hfailure. reflexivity.
Defined.

(** C9. With no envelope, [handleServiceResponse] sets status 500 and
    sends the fixed "unexpected error" body; with an envelope it sets
    the envelope's own status code and sends the envelope as it is. *)
Theorem handleServiceResponse_sends_envelope_verbatim :
  forall (response : Response),
    handleServiceResponse None response =
      mkResponse 500
        (Some (mkServiceResponse false
                 "An unexpected error occurred: Service response is undefined"
                 null 500))
    /\ forall (serviceResponse : ServiceResponse),
        handleServiceResponse (Some serviceResponse) response =
          mkResponse (statusCode serviceResponse) (Some serviceResponse).
Proof.
  intros response. split; [reflexivity|].
  intros serviceResponse. reflexivity.
Qed.

(** What [validateRequest] hands to [schema.parse]. *)
Lemma validateRequest_cases (schema : zod.ZodType) (req : Request) (res : Response)
      (next : Request -> Response -> Response) :
  validateRequest schema req res next =
    match zod.parse schema
            (JObject [("body", req_body req); ("query", req_query req);
                      ("params", req_params req)]) with
    | zod.Parsed _ => next req res
    | zod.ZodError errors =>
        mkResponse 400
          (Some (ServiceResponse_.failure
                   ("Invalid input: "
                      ++ String.concat ", " (map zod.issue_message errors))
                   null 400))
    end.
Proof.
  unfold validateRequest.
  destruct (zod.parse schema _); reflexivity.
Qed.

(** C4. When the schema refuses the request, [validateRequest] answers
    with status 400 and the failure envelope whose message is
    "Invalid input: " followed by the issues' messages joined with ", ";
    the answer is the same whatever stands behind [next], which is not
    called. When the schema accepts the request, [next] receives the
    request as it came. *)
Theorem validateRequest_rejects_or_passes_on :
  forall (schema : zod.ZodType) (req : Request) (res : Response)
         (next : Request -> Response -> Response),
    (forall errors,
        zod.parse schema
          (JObject [("body", req_body req); ("query", req_query req);
                    ("params", req_params req)]) = zod.ZodError errors ->
        validateRequest schema req res next =
          mkResponse StatusCodes.BAD_REQUEST
            (Some (ServiceResponse_.failure
                     ("Invalid input: "
                        ++ String.concat ", " (map zod.issue_message errors))
                     null StatusCodes.BAD_REQUEST))
        /\ forall next', validateRequest schema req res next'
                         = validateRequest schema req res next)
    /\ (forall output,
           zod.parse schema
             (JObject [("body", req_body req); ("query", req_query req);
                       ("params", req_params req)]) = zod.Parsed output ->
           validateRequest schema req res next = next req res).
Proof.
  intros schema req res next. split.
  - intros errors Hparse. split.
    + rewrite validateRequest_cases, Hparse. reflexivity.
    + intros next'. now rewrite !validateRequest_cases, Hparse.
  - intros output Hparse. now rewrite validateRequest_cases, Hparse.
Qed.

Lemma validateRequest_rejects_or_passes_on_witness :
  let schema := userModel.CreateUserSchema mocks.has_at in
  let bad := mkRequest (JObject [("name", JString "Test User");
                                 ("email", JString "invalid-email")])
               (JObject []) (JObject []) in
  let good := mkRequest (JObject [("name", JString "Test User");
                                  ("email", JString "test@example.com")])
                (JObject []) (JObject []) in
  validateRequest schema bad (mkResponse 200 None) mocks.found_alice =
    mkResponse 400
      (Some (ServiceResponse_.failure "Invalid input: Invalid email format" null 400))
  /\ validateRequest schema good (mkResponse 200 None) mocks.found_alice =
       mocks.found_alice good (mkResponse 200 None).
Proof.
  intros schema bad good. split.
  - apply (proj1 (validateRequest_rejects_or_passes_on schema bad
                    (mkResponse 200 None) mocks.found_alice)
             [zod.mkIssue "Invalid email format"]).
    reflexivity.
  - apply (proj2 (validateRequest_rejects_or_passes_on schema good
                    (mkResponse 200 None) mocks.found_alice)
             (Some (JObject [("body",
                              JObject [("name", JString "Test User");
                                       ("email", JString "test@example.com")])]))).
    reflexivity.
Defined.

(** The body part of UpdateUserSchema on the empty object: every field
    is optional and absent, so the object parses to [{}] and the
    refinement on its keys fails. *)
Lemma update_body_refuses_empty_object (is_email : string -> bool) :
  zod.refine
    (zod.object
       [("name", zod.optional
                   (zod.string_ [zod.min_length 2 "Name must be at least 2 characters"]));
        ("email", zod.optional
                    (zod.string_ [zod.email_ is_email "Invalid email format"]));
        ("age", zod.optional
                  (zod.number_ [zod.int_;
                                zod.min_value PrimFloat.zero "Age must be a positive number"]))])
    (fun data => 0 <? Z.of_nat (List.length (zod.Object_keys data)))
    "At least one field must be provided for update"
    (Some (JObject []))
  = zod.mkParseReturn zod.dirty (Some (JObject []))
      [zod.mkIssue "At least one field must be provided for update"].
Proof. reflexivity. Qed.

(** An object schema with two keys parses both and keeps both their
    issues, in the order of the shape. *)
Lemma object_of_two_keys (k1 k2 : string) (s1 s2 : zod.ZodType)
      (entries : list (string * JSON)) :
  let r1 := s1 (zod.lookup k1 entries) in
  let r2 := s2 (zod.lookup k2 entries) in
  zod.status (zod.object [(k1, s1); (k2, s2)] (Some (JObject entries)))
  = zod.merge_status [zod.status r1; zod.status r2]
  /\ zod.issues (zod.object [(k1, s1); (k2, s2)] (Some (JObject entries)))
     = (zod.issues r1 ++ zod.issues r2)%list.
Proof.
  cbv zeta. unfold zod.object. cbn [map fst snd flat_map zod.status zod.issues].
  now rewrite app_nil_r.
Qed.

(** C7. An update request with the empty object as its body is answered
    by the validation with status 400 and a failure envelope whose
    message starts with "Invalid input" and ends with the refinement's
    "At least one field must be provided for update", whatever the
    parameters, the query, the identifier schema and the rest of the
    route are: neither the controller nor the store has a say. *)
Theorem empty_update_body_is_rejected :
  forall (commonValidations_id : zod.ZodType) (is_email : string -> bool)
         (query params : JSON) (res : Response)
         (next : Request -> Response -> Response),
  exists (messages : list string),
    let answer :=
      validateRequest (userModel.UpdateUserSchema commonValidations_id is_email)
        (mkRequest (JObject []) query params) res next in
    answer =
      mkResponse StatusCodes.BAD_REQUEST
        (Some (ServiceResponse_.failure
                 ("Invalid input: "
                    ++ String.concat ", "
                         (messages
                            ++ ["At least one field must be provided for update"]))
                 null StatusCodes.BAD_REQUEST))
    /\ String.prefix "Invalid input"
         (match res_body answer with
          | Some body => message body
          | None => ""
          end) = true.
Proof.
  intros cid is_email query params res next.
  exists (map zod.issue_message
            (zod.issues (zod.object [("id", cid)] (Some params)))).
  cbv zeta. rewrite validateRequest_cases.
  unfold userModel.UpdateUserSchema, zod.parse.
  cbn [req_body req_query req_params].
  match goal with
  | |- context [zod.object [(?k1, ?s1); (?k2, ?s2)] (Some (JObject ?entries))] =>
      destruct (object_of_two_keys k1 k2 s1 s2 entries) as [Hstatus Hissues]
  end.
  cbv zeta in Hstatus, Hissues.
  cbn [zod.lookup String.eqb Ascii.eqb Bool.eqb] in Hstatus, Hissues.
  rewrite update_body_refuses_empty_object in Hstatus, Hissues.
  cbn [zod.status zod.issues] in Hstatus, Hissues.
  rewrite Hstatus, Hissues.
  set (P := zod.object [("id", cid)] (Some params)).
  unfold zod.merge_status. cbn [existsb orb].
  destruct (zod.status P); cbn [orb]; rewrite map_app; split; reflexivity.
Qed.

(* ------------------------------------------------------------------ *)
(** ** The repository over the [users] table                          *)
(* ------------------------------------------------------------------ *)

Section OverTheTable.
Variable refuses : list User -> User -> option Error.

Lemma select_by_id (id_ : Z) (db : MySQL.Database) :
  MySQL.query refuses "SELECT * FROM users WHERE id = ?" [SqlNumber id_] db =
    (Resolved (RowsResult (filter (fun r => id r =? id_) (MySQL.users db))), db).
Proof. reflexivity. Qed.

Lemma delete_by_id (id_ : Z) (db : MySQL.Database) :
  MySQL.query refuses "DELETE FROM users WHERE id = ?" [SqlNumber id_] db =
    MySQL.delete_where_id id_ db.
Proof. reflexivity. Qed.

(** [findByIdAsync] over the table: one SELECT, the first matching row. *)
Lemma findByIdAsync_over_table (id_ : Z) (w : RepositoryWorld MySQL.Database) :
  UserRepository.findByIdAsync (MySQL.pool refuses) id_ w =
    (Resolved (hd_error (filter (fun r => id r =? id_) (MySQL.users (database w)))),
     mkRepositoryWorld (database w)
       (issued w ++ [("SELECT * FROM users WHERE id = ?", [SqlNumber id_])])
       (logged w)).
Proof.
  unfold UserRepository.findByIdAsync, try_catch, bind, UserRepository.query.
  cbn [pool_query MySQL.pool]. rewrite select_by_id.
  destruct (filter _ _) as [|row rows]; [reflexivity|].
  cbn. now rewrite with_dates_id.
Qed.

Lemma deleteAsync_over_table (id_ : Z) (w : RepositoryWorld MySQL.Database) :
  UserRepository.deleteAsync (MySQL.pool refuses) id_ w =
    (Resolved
       (0 <? Z.of_nat (List.length
                         (filter (fun r => id r =? id_) (MySQL.users (database w))))),
     mkRepositoryWorld
       (MySQL.mkDatabase
          (filter (fun r => negb (id r =? id_)) (MySQL.users (database w)))
          (MySQL.AUTO_INCREMENT (database w))
          (MySQL.CURRENT_TIMESTAMP (database w)))
       (issued w ++ [("DELETE FROM users WHERE id = ?", [SqlNumber id_])])
       (logged w)).
Proof.
  unfold UserRepository.deleteAsync, try_catch, bind, UserRepository.query.
  cbn [pool_query MySQL.pool]. rewrite delete_by_id. reflexivity.
Qed.
End OverTheTable.

Lemma filter_out_then_in (id_ : Z) (rows : list User) :
  filter (fun r => id r =? id_) (filter (fun r => negb (id r =? id_)) rows) = [].
Proof.
  induction rows as [|row rows IH]; [reflexivity|].
  cbn [filter]. destruct (id row =? id_) eqn:Heq; cbn [negb filter]; [exact IH|].
  now rewrite Heq.
Qed.

Lemma filter_in_nonempty (id_ : Z) (rows : list User) :
  (exists row, In row rows /\ id row = id_) ->
  exists row rest, filter (fun r => id r =? id_) rows = row :: rest.
Proof.
  intros [row [Hin Hid]].
  destruct (filter (fun r => id r =? id_) rows) as [|first rest] eqn:Hfilter.
  - exfalso. assert (Hmem : In row (filter (fun r => id r =? id_) rows)).
    { apply filter_In. split; [exact Hin | now apply Z.eqb_eq]. }
    rewrite Hfilter in Hmem. exact Hmem.
  - now exists first, rest.
Qed.

(** C6. Over the [users] table, delete twice in a row: the first call
    looks the user up with [findByIdAsync] and, when a row with that
    identifier exists, answers "User deleted successfully" with a null
    payload and status 204; the second call always answers "User not
    found" with status 404. And whenever the lookup finds the user but
    the DELETE reports zero affected rows, the answer is "Failed to
    delete user" with status 500. *)
Theorem delete_twice_is_204_then_404 :
  (forall refuses (id_ : Z) (w : ServiceWorld (RepositoryWorld MySQL.Database)),
      let repo := UserRepository.UserRepository (MySQL.pool refuses) in
      let first := UserService.delete repo id_ w in
      let second := UserService.delete repo id_ (snd first) in
      ((exists row, In row (MySQL.users (database (repository w))) /\ id row = id_) ->
       fst first = Resolved (ServiceResponse_.success "User deleted successfully" null
                               (Some StatusCodes.NO_CONTENT))
       /\ trace (snd first)
          = (trace w ++ [Invoked (FindByIdAsync id_); Invoked (DeleteAsync id_)])%list)
      /\ fst second = Resolved (ServiceResponse_.failure "User not found" null
                                  StatusCodes.NOT_FOUND))
  /\
  (forall D (pool : Pool D) (id_ : Z) (w : ServiceWorld (RepositoryWorld D))
          (row : User) (rows : list User) (insertId : Z) (d1 d2 : D),
      pool_query pool "SELECT * FROM users WHERE id = ?" [SqlNumber id_]
        (database (repository w)) = (Resolved (RowsResult (row :: rows)), d1) ->
      pool_query pool "DELETE FROM users WHERE id = ?" [SqlNumber id_] d1
        = (Resolved (ResultSetHeader insertId 0), d2) ->
      fst (UserService.delete (UserRepository.UserRepository pool) id_ w)
      = Resolved (ServiceResponse_.failure "Failed to delete user" null
                    StatusCodes.INTERNAL_SERVER_ERROR)).
Proof.
  split.
  - intros refuses id_ w repo first second. subst second first repo.
    unfold UserService.delete. unfold_async.
    cbn [findByIdAsync deleteAsync UserRepository.UserRepository].
    rewrite findByIdAsync_over_table. cbn [database].
    destruct (filter (fun r => id r =? id_) (MySQL.users (database (repository w))))
      as [|row rest] eqn:Hrows.
    + cbn [hd_error fst snd repository trace].
      rewrite findByIdAsync_over_table. cbn [database]. rewrite Hrows.
      split; [|reflexivity].
      intros Hexists. apply filter_in_nonempty in Hexists.
      destruct Hexists as [r [rs Hsome]]. rewrite Hrows in Hsome. discriminate Hsome.
    + cbn [hd_error fst snd repository trace]. rewrite deleteAsync_over_table.
      cbn [database MySQL.users repository]. rewrite Hrows.
      cbn [List.length]. rewrite Nat2Z.inj_succ.
      replace (0 <? Z.succ (Z.of_nat (List.length rest))) with true
        by (symmetry; apply Z.ltb_lt; lia).
      cbn [fst snd repository trace]. rewrite findByIdAsync_over_table.
      cbn [database MySQL.users]. rewrite filter_out_then_in. cbn.
      split; [|reflexivity]. intros _. split; [reflexivity|].
      now rewrite <- app_assoc.
  - intros D pool id_ w row rows insertId d1 d2 Hselect Hdelete.
    unfold UserService.delete. unfold_async.
    cbn [findByIdAsync deleteAsync UserRepository.UserRepository].
    unfold UserRepository.findByIdAsync, UserRepository.deleteAsync,
      try_catch, bind, UserRepository.query.
    rewrite Hselect. cbn. rewrite Hdelete. reflexivity.
Qed.

Lemma delete_twice_is_204_then_404_witness :
  let repo := UserRepository.UserRepository (MySQL.pool mocks.lenient) in
  let w := mocks.table mocks.mockUsers in
  fst (UserService.delete repo 1 w)
  = Resolved (ServiceResponse_.success "User deleted successfully" null (Some 204))
  /\ fst (UserService.delete repo 1 (snd (UserService.delete repo 1 w)))
     = Resolved (ServiceResponse_.failure "User not found" null 404)
  /\ fst (UserService.delete
            (UserRepository.UserRepository (mocks.mockPool mocks.alice 0)) 1
            (mkWorld (mkRepositoryWorld tt [] []) []))
     = Resolved (ServiceResponse_.failure "Failed to delete user" null 500).
Proof.
  intros repo w.
  pose proof (proj1 delete_twice_is_204_then_404 mocks.lenient 1 w) as Htwice.
  cbv zeta in Htwice. destruct Htwice as [Hfirst Hsecond].
  split.
  - apply Hfirst. exists mocks.alice. split; [left; reflexivity | reflexivity].
  - split; [exact Hsecond|].
    apply (proj2 delete_twice_is_204_then_404 unit (mocks.mockPool mocks.alice 0) 1
             (mkWorld (mkRepositoryWorld tt [] []) []) mocks.alice [] 0 tt tt);
      reflexivity.
Defined.

(** C10. [createAsync] hands back the first row of its re-read, with
    no check in between. When the re-read by [insertId] yields a row,
    that row is the result; when it yields none, reading the first row
    raises, so the call rejects rather than resolving with a not-found
    value. Whatever resolves is therefore always a first re-read row.
    [updateAsync], in contrast, does resolve with null when no row is
    affected. *)
Theorem createAsync_returns_first_reread_row :
  (forall D (pool : Pool D) (user : UserData) (w : RepositoryWorld D),
      let insert_sql := "INSERT INTO users (name, email, age) VALUES (?, ?, ?)" in
      let insert_values := [SqlString (data_name user); SqlString (data_email user);
                            UserRepository.bind_number (data_age user)] in
      let select_sql := "SELECT * FROM users WHERE id = ?" in
      let reread result :=
        [UserRepository.bind_number (UserRepository.insertId_of result)] in
      (forall result d1,
          pool_query pool insert_sql insert_values (database w) = (Resolved result, d1) ->
          (forall row rows d2,
              pool_query pool select_sql (reread result) d1
              = (Resolved (RowsResult (row :: rows)), d2) ->
              UserRepository.createAsync pool user w =
                (Resolved (UserRepository.with_dates row),
                 mkRepositoryWorld d2
                   (issued w ++ [(insert_sql, insert_values);
                                 (select_sql, reread result)])
                   (logged w)))
          /\ (forall d2,
                 pool_query pool select_sql (reread result) d1
                 = (Resolved (RowsResult []), d2) ->
                 exists e w', UserRepository.createAsync pool user w = (Rejected e, w')))
      /\ (forall created w',
             UserRepository.createAsync pool user w = (Resolved created, w') ->
             exists result d1 row rows,
               pool_query pool insert_sql insert_values (database w)
               = (Resolved result, d1)
               /\ pool_query pool select_sql (reread result) d1
                  = (Resolved (RowsResult (row :: rows)), database w')
               /\ created = UserRepository.with_dates row))
  /\ (exists w',
         UserRepository.updateAsync (MySQL.pool mocks.lenient) 9
           (mkPartial (Some "Nobody") None None)
           (mkRepositoryWorld (MySQL.mkDatabase mocks.mockUsers 3 1000) [] [])
         = (Resolved None, w')).
Proof.
  split.
  - intros D pool user w insert_sql insert_values select_sql reread.
    unfold UserRepository.createAsync, try_catch, bind, UserRepository.query.
    fold insert_sql insert_values select_sql.
    split.
    + intros result d1 Hinsert. rewrite Hinsert. cbn [database issued logged].
      fold (reread result). split.
      * intros row rows d2 Hselect. rewrite Hselect. cbn.
        now rewrite <- app_assoc.
      * intros d2 Hselect. rewrite Hselect. cbn. unfold throw. eauto.
    + intros created w'.
      destruct (pool_query pool insert_sql insert_values (database w))
        as [[result|[e| |]] d1] eqn:Hinsert; cbn [database issued logged];
        [|cbn; intros Hrun; discriminate Hrun..].
      fold (reread result).
      destruct (pool_query pool select_sql (reread result) d1)
        as [[[[|row rows]|i a]|[e| |]] d2] eqn:Hselect;
        cbn; intros Hrun; try discriminate Hrun.
      injection Hrun as Hcreated Hw'. subst w'. cbn [database].
      exists result, d1, row, rows.
      split; [reflexivity|]. split; [exact Hselect | now symmetry].
  - eexists. vm_compute. reflexivity.
Qed.

Lemma createAsync_returns_first_reread_row_witness :
  fst (UserRepository.createAsync (MySQL.pool mocks.lenient)
         (mkUserData "Charlie" "charlie@example.com" (Some 30))
         (mkRepositoryWorld (MySQL.mkDatabase mocks.mockUsers 3 1000) [] []))
  = Resolved (mkUser 3 "Charlie" "charlie@example.com" (Some 30) 1000 1000).
Proof.
  pose proof (proj1 (proj1 createAsync_returns_first_reread_row
                       MySQL.Database (MySQL.pool mocks.lenient)
                       (mkUserData "Charlie" "charlie@example.com" (Some 30))
                       (mkRepositoryWorld (MySQL.mkDatabase mocks.mockUsers 3 1000)
                          [] []))) as Hcreate.
  cbv zeta in Hcreate.
  destruct (Hcreate (ResultSetHeader 3 1)
              (MySQL.mkDatabase
                 (mocks.mockUsers
                    ++ [mkUser 3 "Charlie" "charlie@example.com" (Some 30) 1000 1000])
                 4 1000) eq_refl) as [Hrow _].
  rewrite (Hrow (mkUser 3 "Charlie" "charlie@example.com" (Some 30) 1000 1000) []
             (MySQL.mkDatabase
                (mocks.mockUsers
                   ++ [mkUser 3 "Charlie" "charlie@example.com" (Some 30) 1000 1000])
                4 1000) eq_refl).
  reflexivity.
Defined.

(* ------------------------------------------------------------------ *)
(** ** updateAsync                                                     *)
(* ------------------------------------------------------------------ *)

Lemma updateFields_nonempty (user : PartialUserData) :
  UserRepository.updateFields user <> [] ->
  (Z.of_nat (List.length (UserRepository.updateFields user)) =? 0) = false.
Proof.
  intros Hfields. destruct (UserRepository.updateFields user); [contradiction|].
  reflexivity.
Qed.

Lemma updateFields_empty (user : PartialUserData) :
  UserRepository.updateFields user = [] ->
  partial_name user = None /\ partial_email user = None /\ partial_age user = None.
Proof.
  destruct user as [[n|] [e|] [a|]]; cbn; intros H; try discriminate H.
  repeat split.
Qed.

(** The server reads the UPDATE the repository wrote: it assigns the
    supplied columns and nothing else. *)
Lemma update_statement_over_table (refuses : list User -> User -> option Error)
      (id_ : Z) (user : PartialUserData) (db : MySQL.Database) :
  UserRepository.updateFields user <> [] ->
  exists set : User -> User,
    MySQL.query refuses
      ("UPDATE users SET " ++ String.concat ", " (UserRepository.updateFields user)
         ++ " WHERE id = ?")
      (UserRepository.values user ++ [SqlNumber id_]) db
    = MySQL.update_where_id refuses set id_ db
    /\ forall r,
        id (set r) = id r
        /\ createdAt (set r) = createdAt r
        /\ updatedAt (set r) = updatedAt r
        /\ name (set r) = match partial_name user with Some n => n | None => name r end
        /\ email (set r) = match partial_email user with Some e => e | None => email r end
        /\ age (set r) = match partial_age user with Some a => Some a | None => age r end.
Proof.
  destruct user as [[n|] [e|] [a|]]; cbn [UserRepository.updateFields
    UserRepository.values partial_name partial_email partial_age app];
    intros Hfields; try contradiction;
    (eexists; split;
     [lazy -[MySQL.update_where_id]; reflexivity | intros r; repeat split]).
Qed.

Lemma on_update_fields (now : Date) (old new : User) :
  id (MySQL.on_update now old new) = id new
  /\ name (MySQL.on_update now old new) = name new
  /\ email (MySQL.on_update now old new) = email new
  /\ age (MySQL.on_update now old new) = age new
  /\ createdAt (MySQL.on_update now old new) = createdAt new.
Proof.
  unfold MySQL.on_update. destruct (_ && _)%bool; repeat split.
Qed.

(** What an UPDATE by identifier does to the table. *)
Lemma update_where_id_cases (refuses : list User -> User -> option Error)
      (set : User -> User) (id_ : Z) (db : MySQL.Database) :
  (exists e : Error, MySQL.update_where_id refuses set id_ db = (Rejected e, db))
  \/ MySQL.update_where_id refuses set id_ db =
       (Resolved (ResultSetHeader 0
                    (Z.of_nat (List.length
                                 (filter (fun r => id r =? id_) (MySQL.users db))))),
        MySQL.mkDatabase
          (map (fun r => if id r =? id_
                         then MySQL.on_update (MySQL.CURRENT_TIMESTAMP db) r (set r)
                         else r) (MySQL.users db))
          (MySQL.AUTO_INCREMENT db) (MySQL.CURRENT_TIMESTAMP db)).
Proof.
  unfold MySQL.update_where_id, MySQL.header.
  destruct (flat_map _ _) as [|e others]; [right; reflexivity | left; eauto].
Qed.

Lemma update_where_id_lenient (refuses : list User -> User -> option Error)
      (set : User -> User) (id_ : Z) (db : MySQL.Database) :
  (forall rows row, refuses rows row = None) ->
  forall e : Error, MySQL.update_where_id refuses set id_ db <> (Rejected e, db).
Proof.
  intros Hlenient e. unfold MySQL.update_where_id, MySQL.header.
  assert (Hnone : flat_map (fun r => match refuses (MySQL.users db) (set r) with
                                     | Some e => [e]
                                     | None => []
                                     end)
                    (filter (fun r => id r =? id_) (MySQL.users db)) = []).
  { induction (filter _ _) as [|r rs IH]; [reflexivity|].
    cbn. now rewrite Hlenient. }
  rewrite Hnone. discriminate.
Qed.

Section RowsAfterUpdate.
Variable id_ : Z.
Variable user : PartialUserData.
Variable write : User -> User.
Hypothesis write_id : forall r, id (write r) = id r.

Lemma kept_refl (r : User) : kept id_ user r r.
Proof. repeat split. Qed.

Lemma kept_all_refl (rows : list User) : Forall2 (kept id_ user) rows rows.
Proof. induction rows; constructor; [apply kept_refl | assumption]. Qed.

Lemma kept_after_rewrite (rows : list User) :
  (forall r, kept id_ user r (write r) \/ id r <> id_) ->
  Forall2 (kept id_ user) rows
    (map (fun r => if id r =? id_ then write r else r) rows).
Proof.
  intros Hwrite. induction rows as [|r rows IH]; cbn [map]; constructor; [|exact IH].
  destruct (Z.eqb_spec (id r) id_) as [Heq|Hneq].
  - destruct (Hwrite r) as [Hkept|Hneq]; [exact Hkept | contradiction].
  - apply kept_refl.
Qed.

Lemma first_match_after_rewrite (rows : list User) :
  hd_error (filter (fun r => id r =? id_)
              (map (fun r => if id r =? id_ then write r else r) rows))
  = option_map write (hd_error (filter (fun r => id r =? id_) rows)).
Proof.
  induction rows as [|r rows IH]; [reflexivity|].
  cbn [map filter]. destruct (id r =? id_) eqn:Heq.
  - rewrite write_id, Heq. reflexivity.
  - rewrite Heq. exact IH.
Qed.
End RowsAfterUpdate.

(** [updateAsync] over the table, when at least one field is supplied:
    either the server refuses the UPDATE and nothing is stored, or every
    row with the identifier is written and the first of them comes back
    from the re-read. *)
Lemma updateAsync_over_table (refuses : list User -> User -> option Error)
      (id_ : Z) (user : PartialUserData) (w : RepositoryWorld MySQL.Database) :
  UserRepository.updateFields user <> [] ->
  exists write : User -> User,
    (forall r,
        id (write r) = id r
        /\ createdAt (write r) = createdAt r
        /\ name (write r) = match partial_name user with Some n => n | None => name r end
        /\ email (write r) = match partial_email user with Some e => e | None => email r end
        /\ age (write r) = match partial_age user with Some a => Some a | None => age r end)
    /\ ((exists (e : Error) w',
            UserRepository.updateAsync (MySQL.pool refuses) id_ user w = (Rejected e, w')
            /\ database w' = database w
            /\ filter (fun r => id r =? id_) (MySQL.users (database w)) <> []
            /\ ~ (forall rows row, refuses rows row = None))
        \/ (exists w',
               UserRepository.updateAsync (MySQL.pool refuses) id_ user w
               = (Resolved
                    (option_map write
                       (hd_error (filter (fun r => id r =? id_)
                                    (MySQL.users (database w))))), w')
               /\ MySQL.users (database w')
                  = map (fun r => if id r =? id_ then write r else r)
                        (MySQL.users (database w)))).
Proof.
  intros Hfields.
  destruct (update_statement_over_table refuses id_ user (database w) Hfields)
    as [set [Hquery Hset]].
  exists (fun r => MySQL.on_update (MySQL.CURRENT_TIMESTAMP (database w)) r (set r)).
  split.
  { intros r. destruct (Hset r) as [Hid [Hcreated [_ [Hname [Hemail Hage]]]]].
    destruct (on_update_fields (MySQL.CURRENT_TIMESTAMP (database w)) r (set r))
      as [Hid' [Hname' [Hemail' [Hage' Hcreated']]]].
    rewrite Hid', Hname', Hemail', Hage', Hcreated'. repeat split; assumption. }
  unfold UserRepository.updateAsync, bind, try_catch, UserRepository.query.
  rewrite (updateFields_nonempty _ Hfields).
  cbn [pool_query MySQL.pool]. rewrite Hquery.
  destruct (update_where_id_cases refuses set id_ (database w)) as [[e Hrefused]|Hdone].
  - left. rewrite Hrefused. cbn. unfold throw. do 2 eexists.
    split; [reflexivity|]. split; [reflexivity|]. split.
    + intros Hempty. unfold MySQL.update_where_id in Hrefused.
      rewrite Hempty in Hrefused. discriminate Hrefused.
    + intros Hlenient.
      exact (update_where_id_lenient refuses set id_ (database w) Hlenient e Hrefused).
  - right. rewrite Hdone. cbn [UserRepository.affectedRows_of].
    destruct (filter (fun r => id r =? id_) (MySQL.users (database w)))
      as [|row rows] eqn:Hmatched.
    + cbn. eexists. split; reflexivity.
    + cbn [List.length]. rewrite Nat2Z.inj_succ.
      destruct (Z.succ (Z.of_nat (List.length rows))) eqn:Hcount; [lia| |lia].
      unfold ret. cbv beta iota.
      rewrite findByIdAsync_over_table. cbn [database MySQL.users].
      rewrite (first_match_after_rewrite id_
                 (fun r => MySQL.on_update (MySQL.CURRENT_TIMESTAMP (database w)) r (set r))).
      * rewrite Hmatched. eexists. split; reflexivity.
      * intros r.
        destruct (on_update_fields (MySQL.CURRENT_TIMESTAMP (database w)) r (set r))
          as [Hid' _].
        rewrite Hid'. apply Hset.
Qed.

Lemma first_match_in (id_ : Z) (rows : list User) (row : User) :
  hd_error (filter (fun r => id r =? id_) rows) = Some row ->
  In row rows /\ id row = id_.
Proof.
  intros Hfirst.
  assert (Hin : In row (filter (fun r => id r =? id_) rows)).
  { destruct (filter _ _) as [|r rs]; [discriminate Hfirst|].
    injection Hfirst as ->. now left. }
  apply filter_In in Hin. destruct Hin as [Hin Hid].
  split; [exact Hin | now apply Z.eqb_eq].
Qed.

Lemma no_match_filter (id_ : Z) (rows : list User) :
  (forall row, In row rows -> id row <> id_) ->
  filter (fun r => id r =? id_) rows = [].
Proof.
  intros Hnone. induction rows as [|r rows IH]; [reflexivity|].
  cbn [filter]. destruct (Z.eqb_spec (id r) id_) as [Heq|Hneq].
  - exfalso. apply (Hnone r); [now left | exact Heq].
  - apply IH. intros row Hin. apply Hnone. now right.
Qed.

(** C5. [updateAsync] names in its UPDATE exactly the fields supplied;
    with no field supplied it is [findByIdAsync]; when the UPDATE
    reports zero affected rows it resolves with null; otherwise it goes
    on as [findByIdAsync] on what the UPDATE left. Over the [users]
    table every field not supplied, and every other row, is stored as
    it was; a row it resolves with is the stored row with the supplied
    fields in it; an absent identifier gives null and a present one,
    on a server that accepts the write, gives the row. *)
Theorem updateAsync_touches_supplied_fields_only :
  (forall D (pool : Pool D) (id_ : Z) (user : PartialUserData)
          (w : RepositoryWorld D),
      let sql := "UPDATE users SET "
                   ++ String.concat ", " (UserRepository.updateFields user)
                   ++ " WHERE id = ?" in
      let bound := (UserRepository.values user ++ [SqlNumber id_])%list in
      ((In "name = ?" (UserRepository.updateFields user) <-> partial_name user <> None)
       /\ (In "email = ?" (UserRepository.updateFields user)
           <-> partial_email user <> None)
       /\ (In "age = ?" (UserRepository.updateFields user) <-> partial_age user <> None))
      /\ (partial_name user = None -> partial_email user = None ->
          partial_age user = None ->
          UserRepository.updateAsync pool id_ user w
          = UserRepository.findByIdAsync pool id_ w)
      /\ (UserRepository.updateFields user <> [] ->
          (exists rest,
              issued (snd (UserRepository.updateAsync pool id_ user w))
              = (issued w ++ (sql, bound) :: rest)%list)
          /\ (forall insertId d1,
                 pool_query pool sql bound (database w)
                 = (Resolved (ResultSetHeader insertId 0), d1) ->
                 UserRepository.updateAsync pool id_ user w
                 = (Resolved None,
                    mkRepositoryWorld d1 (issued w ++ [(sql, bound)]) (logged w)))
          /\ (forall insertId affectedRows d1,
                 pool_query pool sql bound (database w)
                 = (Resolved (ResultSetHeader insertId affectedRows), d1) ->
                 affectedRows <> 0 ->
                 UserRepository.updateAsync pool id_ user w
                 = UserRepository.findByIdAsync pool id_
                     (mkRepositoryWorld d1 (issued w ++ [(sql, bound)]) (logged w)))))
  /\
  (forall refuses (id_ : Z) (user : PartialUserData)
          (w : RepositoryWorld MySQL.Database),
      let run := UserRepository.updateAsync (MySQL.pool refuses) id_ user w in
      Forall2 (kept id_ user) (MySQL.users (database w))
        (MySQL.users (database (snd run)))
      /\ (forall updated,
             fst run = Resolved (Some updated) ->
             In updated (MySQL.users (database (snd run)))
             /\ id updated = id_
             /\ (forall n, partial_name user = Some n -> name updated = n)
             /\ (forall e, partial_email user = Some e -> email updated = e)
             /\ (forall a, partial_age user = Some a -> age updated = Some a))
      /\ ((forall row, In row (MySQL.users (database w)) -> id row <> id_) ->
          fst run = Resolved None)
      /\ ((exists row, In row (MySQL.users (database w)) /\ id row = id_) ->
          (forall rows row, refuses rows row = None) ->
          exists updated, fst run = Resolved (Some updated))).
Proof.
  split.
  - intros D pool id_ user w sql bound. split; [|split].
    + destruct user as [[n|] [e|] [a|]]; cbn;
        repeat split; intros H; try discriminate;
        repeat (destruct H as [H|H]; try discriminate H);
        try contradiction; auto.
    + destruct user as [n e a]. cbn. intros -> -> ->. reflexivity.
    + intros Hfields.
      unfold UserRepository.updateAsync, bind, try_catch, UserRepository.query.
      rewrite (updateFields_nonempty _ Hfields). fold sql bound.
      split; [|split].
      * destruct (pool_query pool sql bound (database w))
          as [[[rows|insertId [|p|p]]|[e| |]] d1];
          cbn [UserRepository.affectedRows_of ret snd issued];
          unfold message_of, ret, throw, UserRepository.logger_error; cbv beta iota;
          cbn [snd issued database logged];
          try (exists []; reflexivity);
          unfold UserRepository.findByIdAsync, bind, try_catch, UserRepository.query;
          cbn [database issued logged];
          (destruct (pool_query pool _ _ d1) as [[[[|r rs]|i a]|[e'| |]] d2];
           cbn; rewrite <- app_assoc; eexists; reflexivity).
      * intros insertId d1 Hquery. rewrite Hquery. reflexivity.
      * intros insertId affectedRows d1 Hquery Hsome. rewrite Hquery.
        destruct affectedRows; [contradiction|reflexivity|reflexivity].
  - intros refuses id_ user w run. subst run.
    destruct (UserRepository.updateFields user) as [|field fields] eqn:Hfields.
    + destruct (updateFields_empty _ Hfields) as [Hname [Hemail Hage]].
      assert (Hsame : UserRepository.updateAsync (MySQL.pool refuses) id_ user w
                      = UserRepository.findByIdAsync (MySQL.pool refuses) id_ w).
      { destruct user as [n e a]. cbn in Hname, Hemail, Hage. now subst. }
      rewrite Hsame, findByIdAsync_over_table. cbn [fst snd database].
      split; [apply kept_all_refl|]. split; [|split].
      * intros updated Hfirst. injection Hfirst as Hfirst.
        apply first_match_in in Hfirst. destruct Hfirst as [Hin Hid].
        rewrite Hname, Hemail, Hage.
        split; [exact Hin|]. split; [exact Hid|].
        repeat split; intros x Hx; discriminate Hx.
      * intros Hnone. now rewrite (no_match_filter _ _ Hnone).
      * intros Hsome _. apply filter_in_nonempty in Hsome.
        destruct Hsome as [row [rest Hrows]]. rewrite Hrows. now exists row.
    + assert (Hnonempty : UserRepository.updateFields user <> [])
        by (rewrite Hfields; discriminate).
      destruct (updateAsync_over_table refuses id_ user w Hnonempty)
        as [write [Hwrite [[e [w' [Hrun [Hdb [Hmatched Hstrict]]]]]|[w' [Hrun Hrows]]]]];
        rewrite Hrun; cbn [fst snd].
      * rewrite Hdb. split; [apply kept_all_refl|]. split; [|split].
        -- intros updated Hresolved. discriminate Hresolved.
        -- intros Hnone. exfalso. apply Hmatched. now apply no_match_filter.
        -- intros _ Hlenient. contradiction.
      * rewrite Hrows. split; [|split; [|split]].
        -- apply kept_after_rewrite. intros r.
           destruct (Z.eq_dec (id r) id_) as [Heq|Hneq]; [left | now right].
           destruct (Hwrite r) as [Hid [Hcreated [Hname [Hemail Hage]]]].
           split; [exact Hid|]. split; [exact Hcreated|].
           split; [intros Hn; now rewrite Hname, Hn|].
           split; [intros Hn; now rewrite Hemail, Hn|].
           split; [intros Hn; now rewrite Hage, Hn|].
           intros Hneq. contradiction.
        -- intros updated Hresolved. injection Hresolved as Hresolved.
           destruct (hd_error (filter (fun r => id r =? id_) (MySQL.users (database w))))
             as [row|] eqn:Hfirst; [|discriminate Hresolved].
           cbn in Hresolved. injection Hresolved as Hupdated. subst updated.
           apply first_match_in in Hfirst. destruct Hfirst as [Hin Hid].
           destruct (Hwrite row) as [Hid' [_ [Hname [Hemail Hage]]]].
           split.
           { apply in_map_iff. exists row. split; [|exact Hin].
             apply Z.eqb_eq in Hid. now rewrite Hid. }
           split; [now rewrite Hid'|].
           split; [intros n Hn; now rewrite Hname, Hn|].
           split; [intros x Hx; now rewrite Hemail, Hx|].
           intros a Ha. now rewrite Hage, Ha.
        -- intros Hnone. now rewrite (no_match_filter _ _ Hnone).
        -- intros Hsome _. apply filter_in_nonempty in Hsome.
           destruct Hsome as [row [rest Hfound]]. rewrite Hfound.
           now exists (write row).
Qed.

Lemma updateAsync_touches_supplied_fields_only_witness :
  let w := mkRepositoryWorld (MySQL.mkDatabase mocks.mockUsers 3 1000) [] [] in
  (exists updated,
      fst (UserRepository.updateAsync (MySQL.pool mocks.lenient) 1
             (mkPartial None None (Some 40)) w) = Resolved (Some updated)
      /\ id updated = 1 /\ age updated = Some 40)
  /\ UserRepository.updateAsync (MySQL.pool mocks.lenient) 9
       (mkPartial (Some "Nobody") None None) w
     = (Resolved None,
        mkRepositoryWorld (MySQL.mkDatabase mocks.mockUsers 3 1000)
          [("UPDATE users SET name = ? WHERE id = ?",
            [SqlString "Nobody"; SqlNumber 9])] []).
Proof.
  intros w. split.
  - pose proof (proj2 updateAsync_touches_supplied_fields_only mocks.lenient 1
                  (mkPartial None None (Some 40)) w) as Htable.
    cbv zeta in Htable. destruct Htable as [_ [Hupdated [_ Hfound]]].
    destruct Hfound as [updated Hrun].
    + exists mocks.alice. split; [left; reflexivity | reflexivity].
    + intros rows row. reflexivity.
    + exists updated. split; [exact Hrun|].
      destruct (Hupdated updated Hrun) as [_ [Hid [_ [_ Hage]]]].
      split; [exact Hid | now apply Hage].
  - pose proof (proj1 updateAsync_touches_supplied_fields_only MySQL.Database
                  (MySQL.pool mocks.lenient) 9
                  (mkPartial (Some "Nobody") None None) w) as Hpool.
    cbv zeta in Hpool. destruct Hpool as [_ [_ Hissued]].
    destruct Hissued as [_ [Hzero _]]; [discriminate|].
    apply (Hzero 0 (MySQL.mkDatabase mocks.mockUsers 3 1000)). reflexivity.
Defined.

(* ================================================================== *)
(** * Further properties of the service                                *)
(* ================================================================== *)

(** X1. Over the [users] table, [findAll] sends one SELECT and leaves
    the table as it was; it answers "No Users found" with status 404
    exactly when the table is empty, and otherwise "Users found" with
    status 200 and all the rows in the order of the table. *)
Theorem findAll_over_table :
  forall refuses (w : ServiceWorld (RepositoryWorld MySQL.Database)),
    UserService.findAll (UserRepository.UserRepository (MySQL.pool refuses)) w =
      (Resolved
         (match MySQL.users (database (repository w)) with
          | [] => ServiceResponse_.failure "No Users found" null StatusCodes.NOT_FOUND
          | rows => ServiceResponse_.success "Users found" (some_users rows) None
          end),
       mkWorld
         (mkRepositoryWorld (database (repository w))
            (issued (repository w) ++ [("SELECT * FROM users", [])])
            (logged (repository w)))
         (trace w ++ [Invoked FindAllAsync])).
Proof.
  intros refuses w. unfold UserService.findAll. unfold_async.
  cbn [findAllAsync UserRepository.UserRepository].
  unfold bind at 1. rewrite select_all_keeps_users, map_with_dates.
  unfold ret at 1.
  destruct (MySQL.users (database (repository w))); reflexivity.
Qed.

(** X2. Over the [users] table, [findById] sends one SELECT and leaves
    the table as it was; it answers "User found" with status 200 and
    the first row carrying the identifier when there is one, and "User
    not found" with status 404 and a null payload when there is none. *)
Theorem findById_over_table :
  forall refuses (id_ : Z) (w : ServiceWorld (RepositoryWorld MySQL.Database)),
    let rows := MySQL.users (database (repository w)) in
    UserService.findById (UserRepository.UserRepository (MySQL.pool refuses)) id_ w =
      (Resolved
         (match hd_error (filter (fun r => id r =? id_) rows) with
          | Some user => ServiceResponse_.success "User found" (a_user user) None
          | None => ServiceResponse_.failure "User not found" null StatusCodes.NOT_FOUND
          end),
       mkWorld
         (mkRepositoryWorld (database (repository w))
            (issued (repository w)
               ++ [("SELECT * FROM users WHERE id = ?", [SqlNumber id_])])
            (logged (repository w)))
         (trace w ++ [Invoked (FindByIdAsync id_)]))
    /\ ((exists row, In row rows /\ id row = id_)
        <-> hd_error (filter (fun r => id r =? id_) rows) <> None).
Proof.
  intros refuses id_ w rows. split.
  - unfold UserService.findById. unfold_async.
    cbn [findByIdAsync UserRepository.UserRepository].
    rewrite findByIdAsync_over_table.
    destruct (hd_error _); reflexivity.
  - split.
    + intros Hsome. apply filter_in_nonempty in Hsome.
      destruct Hsome as [row [rest Hrows]]. rewrite Hrows. discriminate.
    + intros Hfirst.
      destruct (hd_error (filter (fun r => id r =? id_) rows)) as [row|] eqn:Hrow;
        [|contradiction].
      apply first_match_in in Hrow. now exists row.
Qed.

(** X3. When the lookup by identifier resolves with null, [findById],
    [update] and [delete] all answer "User not found" with status 404:
    [update] reads no other user and writes nothing, [delete] deletes
    nothing; the lookup is the only repository method invoked. *)
Theorem absent_id_stops_after_the_lookup :
  forall S (repo : Repository S) (id_ : Z) (userData : PartialUserData)
         (w : ServiceWorld S) (s1 : S),
    findByIdAsync repo id_ (repository w) = (Resolved None, s1) ->
    let not_found :=
      (Resolved (ServiceResponse_.failure "User not found" null StatusCodes.NOT_FOUND),
       mkWorld s1 (trace w ++ [Invoked (FindByIdAsync id_)])) in
    UserService.findById repo id_ w = not_found
    /\ UserService.update repo id_ userData w = not_found
    /\ UserService.delete repo id_ w = not_found.
Proof.
  intros S repo id_ userData w s1 Hfind not_found. subst not_found.
  unfold_service. rewrite Hfind. repeat split.
Qed.

Lemma absent_id_stops_after_the_lookup_witness :
  UserService.update
    (mocks.mockRepository (Some mocks.mockUsers) None mocks.charlie
       (Some mocks.alice) true)
    999 (mkPartial (Some "Updated Name") None None) (mkWorld tt [])
  = (Resolved (ServiceResponse_.failure "User not found" null 404),
     mkWorld tt [Invoked (FindByIdAsync 999)]).
Proof.
  apply (absent_id_stops_after_the_lookup unit
           (mocks.mockRepository (Some mocks.mockUsers) None mocks.charlie
              (Some mocks.alice) true)
           999 (mkPartial (Some "Updated Name") None None) (mkWorld tt []) tt eq_refl).
Defined.

(** X4. Each operation answers with one of its own status codes only
    (findAll and findById: 200, 404, 500; create: 201, 409, 500;
    update: 200, 404, 409, 500; delete: 204, 404, 500), and the success
    flag of the envelope is set exactly when the code is below 400.
    Every operation answers with such an envelope unless a repository
    call threw [null] or [undefined]. *)
Theorem status_codes_of_each_operation :
  forall S (repo : Repository S) (op : UserService.Operation) (w : ServiceWorld S),
  exists (outcome : Outcome ServiceResponse) (w' : ServiceWorld S)
         (events : list ServiceEvent),
    UserService.run repo op w = (outcome, w')
    /\ trace w' = (trace w ++ events)%list
    /\ match outcome with
       | Resolved response =>
           In (statusCode response)
              (match op with
               | UserService.op_findAll | UserService.op_findById _ => [200; 404; 500]
               | UserService.op_create _ => [201; 409; 500]
               | UserService.op_update _ _ => [200; 404; 409; 500]
               | UserService.op_delete _ => [204; 404; 500]
               end)
           /\ (success response = true <-> statusCode response < 400)
       | Rejected _ =>
           exists c ex, In (Threw c ex) events /\ nullish ex = true
       end.
Proof.
  intros S repo op w.
  destruct op; settle_service;
    (do 3 eexists; split; [reflexivity|]; split;
     [cbn [trace]; rewrite <- ?app_assoc; reflexivity|];
     first
       [ eexists; threw_nullish
       | cbn; split;
         [tauto | split; [intros H; first [reflexivity | discriminate H]
                         | intros H; first [reflexivity | discriminate H]]] ]).
Qed.

(** X5. When a repository call throws, it is the last thing the
    operation asks of the repository, and no line was logged before it.
    When what it threw has a message, the service logs one line right
    after the throw, made of the operation's prefix (with the
    identifier as a template literal prints it) and that message, and
    does nothing else. When it threw [null] or [undefined], reading the
    message raises: the throw is the last event and nothing is
    logged. *)
Theorem a_throw_is_logged_once_and_ends_the_operation :
  forall S (repo : Repository S) (op : UserService.Operation) (w : ServiceWorld S),
    let log_line (text : string) :=
      match op with
      | UserService.op_findAll => "Error finding all users: " ++ text
      | UserService.op_findById id_ =>
          "Error finding user with id " ++ string_of_number id_ ++ ": " ++ text
      | UserService.op_create _ => "Error creating user: " ++ text
      | UserService.op_update id_ _ =>
          "Error updating user with id " ++ string_of_number id_ ++ ": " ++ text
      | UserService.op_delete id_ =>
          "Error deleting user with id " ++ string_of_number id_ ++ ": " ++ text
      end in
  exists (outcome : Outcome ServiceResponse) (w' : ServiceWorld S)
         (events : list ServiceEvent),
    UserService.run repo op w = (outcome, w')
    /\ trace w' = (trace w ++ events)%list
    /\ (forall c ex,
           In (Threw c ex) events ->
           exists before,
             events = (before ++ [Invoked c; Threw c ex]
                         ++ match ex with
                            | an_Error e => [LoggerError (log_line (error_message e))]
                            | thrown_null | thrown_undefined => []
                            end)%list
             /\ (forall c' ex', ~ In (Threw c' ex') before)
             /\ (forall line, ~ In (LoggerError line) before)).
Proof.
  intros S repo op w log_line. subst log_line.
  destruct op; settle_service;
    (do 3 eexists; split; [reflexivity|]; split;
     [cbn [trace]; rewrite <- ?app_assoc; reflexivity|];
     intros call err Hin; cbn in Hin;
     repeat (destruct Hin as [Hin|Hin]; try discriminate Hin);
     first
       [ contradiction
       | injection Hin as <- <-;
         match goal with
         | |- exists before, ?l = (_ ++ [_; _] ++ [_])%list /\ _ =>
             exists (removelast (removelast (removelast l)))
         | |- exists before, ?l = (_ ++ [_; _] ++ [])%list /\ _ =>
             exists (removelast (removelast l))
         end;
         cbn; split; [reflexivity|];
         split; intros; intros Hbefore;
         repeat (destruct Hbefore as [Hbefore|Hbefore]; try discriminate Hbefore);
         contradiction ]).
Qed.

Lemma a_throw_is_logged_once_and_ends_the_operation_witness :
  trace (snd (UserService.run (mocks.rejectingRepository "Database error")
                (UserService.op_delete 1000000000000000000000) (mkWorld tt [])))
  = [Invoked (FindByIdAsync 1000000000000000000000);
     Threw (FindByIdAsync 1000000000000000000000) (mkError "Error" "Database error");
     LoggerError "Error deleting user with id 1e+21: Database error"]
  /\ trace (snd (UserService.run (mocks.throwingRepository thrown_undefined)
                   (UserService.op_delete 7) (mkWorld tt [])))
     = [Invoked (FindByIdAsync 7); Threw (FindByIdAsync 7) thrown_undefined].
Proof.
  split.
  - pose proof (a_throw_is_logged_once_and_ends_the_operation unit
                  (mocks.rejectingRepository "Database error")
                  (UserService.op_delete 1000000000000000000000) (mkWorld tt []))
      as Hlogged.
    cbv zeta in Hlogged.
    destruct Hlogged as [outcome [w' [events [Hrun [Htrace Hthrew]]]]].
    apply (f_equal snd) in Hrun. cbn [snd] in Hrun. rewrite Hrun, Htrace.
    cbn [trace app].
    destruct (Hthrew (FindByIdAsync 1000000000000000000000)
                (mkError "Error" "Database error"))
      as [before [Hevents _]].
    + vm_compute in Hrun. subst w'. cbn [trace app] in Htrace. subst events.
      right. left. reflexivity.
    + vm_compute in Hrun. subst w'. cbn [trace app] in Htrace.
      rewrite <- Htrace. reflexivity.
  - pose proof (a_throw_is_logged_once_and_ends_the_operation unit
                  (mocks.throwingRepository thrown_undefined)
                  (UserService.op_delete 7) (mkWorld tt [])) as Hlogged.
    cbv zeta in Hlogged.
    destruct Hlogged as [outcome [w' [events [Hrun [Htrace _]]]]].
    apply (f_equal snd) in Hrun. cbn [snd] in Hrun. rewrite Hrun, Htrace.
    vm_compute in Hrun. subst w'. cbn [trace app] in Htrace.
    rewrite <- Htrace. reflexivity.
Defined.

(* ------------------------------------------------------------------ *)
(** ** Creating over the [users] table                                 *)
(* ------------------------------------------------------------------ *)

Lemma insert_statement (refuses : list User -> User -> option Error)
      (user : UserData) (db : MySQL.Database) :
  MySQL.query refuses "INSERT INTO users (name, email, age) VALUES (?, ?, ?)"
    [SqlString (data_name user); SqlString (data_email user);
     UserRepository.bind_number (data_age user)] db
  = MySQL.insert refuses (data_name user) (data_email user) (data_age user) db.
Proof. destruct user as [n e [a|]]; reflexivity. Qed.

Lemma filter_id_app_last (id_ : Z) (rows : list User) (row : User) :
  id row = id_ ->
  filter (fun r => id r =? id_) (rows ++ [row])
  = (filter (fun r => id r =? id_) rows ++ [row])%list.
Proof.
  intros Hid. rewrite filter_app. cbn [filter].
  now rewrite Hid, Z.eqb_refl.
Qed.

(** [createAsync] over the table: a refused INSERT stores nothing and
    is rethrown; an accepted one appends the row and re-reads by its
    identifier. *)
Lemma createAsync_over_table (refuses : list User -> User -> option Error)
      (user : UserData) (w : RepositoryWorld MySQL.Database) :
  let db := database w in
  let row := mkUser (MySQL.AUTO_INCREMENT db) (data_name user) (data_email user)
               (data_age user) (MySQL.CURRENT_TIMESTAMP db) (MySQL.CURRENT_TIMESTAMP db) in
  match refuses (MySQL.users db) row with
  | Some e =>
      exists w',
        UserRepository.createAsync (MySQL.pool refuses) user w = (Rejected e, w')
        /\ database w' = db
  | None =>
      exists w',
        UserRepository.createAsync (MySQL.pool refuses) user w =
          (Resolved (hd row (filter (fun r => id r =? MySQL.AUTO_INCREMENT db)
                               (MySQL.users db))), w')
        /\ database w' = MySQL.mkDatabase (MySQL.users db ++ [row])
                           (MySQL.AUTO_INCREMENT db + 1) (MySQL.CURRENT_TIMESTAMP db)
  end.
Proof.
  intros db row. subst row.
  unfold UserRepository.createAsync, try_catch, bind, UserRepository.query.
  cbn [pool_query MySQL.pool]. rewrite insert_statement.
  unfold MySQL.insert. fold db.
  destruct (refuses (MySQL.users db) _) as [e|].
  - cbn. unfold throw. eexists. split; reflexivity.
  - unfold MySQL.header. cbn [database issued logged UserRepository.insertId_of
                               UserRepository.bind_number].
    rewrite select_by_id. cbn [MySQL.users].
    rewrite filter_id_app_last by reflexivity.
    destruct (filter (fun r => id r =? MySQL.AUTO_INCREMENT db) (MySQL.users db))
      as [|first others]; cbn [app hd]; unfold UserRepository.first_row_with_dates, ret.
      all: rewrite with_dates_id; eexists; split; reflexivity.
Qed.

(** The steps of [create] when no row carries the email and the server
    accepts the row: the state after [createAsync] is [w1]. *)
Ltac run_accepted_create refuses userData w Hbelow Hfresh Haccepts w1 Hdb :=
  let Hcreate := fresh "Hcreate" in
  let Hrun := fresh "Hrun" in
  unfold UserService.create; unfold_async;
  cbn [findAllAsync createAsync UserRepository.UserRepository];
  unfold bind at 1; rewrite select_all_keeps_users, map_with_dates;
  unfold ret at 1;
  rewrite (existsb_email_false _ _ Hfresh);
  pose proof (createAsync_over_table refuses userData
                (mkRepositoryWorld (database (repository w))
                   (issued (repository w) ++ [("SELECT * FROM users", [])])
                   (logged (repository w)))) as Hcreate;
  cbv zeta in Hcreate; cbn [database] in Hcreate;
  rewrite Haccepts in Hcreate; destruct Hcreate as [w1 [Hrun Hdb]];
  cbn [repository trace]; rewrite Hrun;
  rewrite (no_match_filter (MySQL.AUTO_INCREMENT (database (repository w)))
             (MySQL.users (database (repository w))))
    by (let r := fresh "r" in
        let Hin := fresh "Hin" in
        let Heq := fresh "Heq" in
        intros r Hin Heq; specialize (Hbelow r Hin); lia);
  cbn [hd fst snd repository].

(** X6. Over the [users] table whose identifiers are all below the
    counter: creating a user whose email no row carries, on a server
    that accepts the row, answers "User created successfully" with
    status 201 and the new row as payload. The row has the input's
    name, email and age, the counter as identifier and the current
    time as both timestamps; the table grows by exactly this row and
    the counter by one. *)
Theorem create_fresh_email_over_table :
  forall refuses (userData : UserData)
         (w : ServiceWorld (RepositoryWorld MySQL.Database)),
    let db := database (repository w) in
    let row := mkUser (MySQL.AUTO_INCREMENT db) (data_name userData)
                 (data_email userData) (data_age userData)
                 (MySQL.CURRENT_TIMESTAMP db) (MySQL.CURRENT_TIMESTAMP db) in
    (forall r, In r (MySQL.users db) -> id r < MySQL.AUTO_INCREMENT db) ->
    (forall r, In r (MySQL.users db) -> email r <> data_email userData) ->
    refuses (MySQL.users db) row = None ->
    exists w',
      UserService.create (UserRepository.UserRepository (MySQL.pool refuses))
        userData w
      = (Resolved (ServiceResponse_.success "User created successfully" (a_user row)
                     (Some StatusCodes.CREATED)), w')
      /\ database (repository w')
         = MySQL.mkDatabase (MySQL.users db ++ [row]) (MySQL.AUTO_INCREMENT db + 1)
             (MySQL.CURRENT_TIMESTAMP db).
Proof.
  intros refuses userData w db row Hbelow Hfresh Haccepts. subst row db.
  run_accepted_create refuses userData w Hbelow Hfresh Haccepts w1 Hdb.
  eexists. split; [reflexivity|]. exact Hdb.
Qed.

Lemma create_fresh_email_over_table_witness :
  fst (UserService.create (UserRepository.UserRepository (MySQL.pool mocks.unique_email))
         (mkUserData "Charlie" "charlie@example.com" (Some 30))
         (mocks.table mocks.mockUsers))
  = Resolved (ServiceResponse_.success "User created successfully"
                (a_user (mkUser 3 "Charlie" "charlie@example.com" (Some 30) 1000 1000))
                (Some 201)).
Proof.
  destruct (create_fresh_email_over_table mocks.unique_email
              (mkUserData "Charlie" "charlie@example.com" (Some 30))
              (mocks.table mocks.mockUsers)) as [w' [Hrun _]].
  - intros r [<-|[<-|[]]]; reflexivity.
  - intros r [<-|[<-|[]]]; discriminate.
  - reflexivity.
  - now rewrite Hrun.
Defined.

(** X7. Round trip over the [users] table, under the conditions of an
    accepted create: looking the new identifier up right after the
    create answers "User found" with the very record the create
    returned, and listing all users then answers with the old rows
    followed by that record. *)
Theorem create_then_read_back :
  forall refuses (userData : UserData)
         (w : ServiceWorld (RepositoryWorld MySQL.Database)),
    let repo := UserRepository.UserRepository (MySQL.pool refuses) in
    let db := database (repository w) in
    let row := mkUser (MySQL.AUTO_INCREMENT db) (data_name userData)
                 (data_email userData) (data_age userData)
                 (MySQL.CURRENT_TIMESTAMP db) (MySQL.CURRENT_TIMESTAMP db) in
    (forall r, In r (MySQL.users db) -> id r < MySQL.AUTO_INCREMENT db) ->
    (forall r, In r (MySQL.users db) -> email r <> data_email userData) ->
    refuses (MySQL.users db) row = None ->
    let created := UserService.create repo userData w in
    fst created = Resolved (ServiceResponse_.success "User created successfully"
                              (a_user row) (Some StatusCodes.CREATED))
    /\ fst (UserService.findById repo (id row) (snd created))
       = Resolved (ServiceResponse_.success "User found" (a_user row) None)
    /\ fst (UserService.findAll repo (snd created))
       = Resolved (ServiceResponse_.success "Users found"
                     (some_users (MySQL.users db ++ [row])) None).
Proof.
  intros refuses userData w repo db row Hbelow Hfresh Haccepts created.
  subst created row db repo.
  assert (Hcreated :
            exists w',
              UserService.create (UserRepository.UserRepository (MySQL.pool refuses))
                userData w
              = (Resolved
                   (ServiceResponse_.success "User created successfully"
                      (a_user (mkUser (MySQL.AUTO_INCREMENT (database (repository w)))
                                 (data_name userData) (data_email userData)
                                 (data_age userData)
                                 (MySQL.CURRENT_TIMESTAMP (database (repository w)))
                                 (MySQL.CURRENT_TIMESTAMP (database (repository w)))))
                      (Some StatusCodes.CREATED)), w')
              /\ MySQL.users (database (repository w'))
                 = (MySQL.users (database (repository w))
                      ++ [mkUser (MySQL.AUTO_INCREMENT (database (repository w)))
                            (data_name userData) (data_email userData)
                            (data_age userData)
                            (MySQL.CURRENT_TIMESTAMP (database (repository w)))
                            (MySQL.CURRENT_TIMESTAMP (database (repository w)))])%list).
  { run_accepted_create refuses userData w Hbelow Hfresh Haccepts w1 Hdb.
    eexists. split; [reflexivity|]. cbn [repository]. now rewrite Hdb. }
  destruct Hcreated as [w' [Hrun Hrows]]. rewrite Hrun. cbn [fst snd].
  split; [reflexivity|]. split.
  - unfold UserService.findById. unfold_async.
    cbn [findByIdAsync UserRepository.UserRepository].
    rewrite findByIdAsync_over_table, Hrows. cbn [id].
    rewrite filter_id_app_last by reflexivity.
    rewrite no_match_filter
      by (intros r Hin Heq; specialize (Hbelow r Hin); lia).
    reflexivity.
  - unfold UserService.findAll. unfold_async.
    cbn [findAllAsync UserRepository.UserRepository].
    unfold bind at 1. rewrite select_all_keeps_users, map_with_dates, Hrows.
    unfold ret at 1.
    destruct (MySQL.users (database (repository w))); reflexivity.
Qed.

Lemma create_then_read_back_witness :
  let repo := UserRepository.UserRepository (MySQL.pool mocks.unique_email) in
  let created := UserService.create repo
                   (mkUserData "Charlie" "charlie@example.com" None)
                   (mocks.table mocks.mockUsers) in
  fst (UserService.findById repo 3 (snd created))
  = Resolved (ServiceResponse_.success "User found"
                (a_user (mkUser 3 "Charlie" "charlie@example.com" None 1000 1000))
                None).
Proof.
  intros repo created.
  pose proof (create_then_read_back mocks.unique_email
                (mkUserData "Charlie" "charlie@example.com" None)
                (mocks.table mocks.mockUsers)) as Hround.
  cbv zeta in Hround. destruct Hround as [_ [Hread _]].
  - intros r [<-|[<-|[]]]; reflexivity.
  - intros r [<-|[<-|[]]]; discriminate.
  - reflexivity.
  - exact Hread.
Defined.

(* ------------------------------------------------------------------ *)
(** ** Emails stay distinct                                            *)
(* ------------------------------------------------------------------ *)

Lemma NoDup_snoc {A} (l : list A) (x : A) :
  NoDup l -> ~ In x l -> NoDup (l ++ [x]).
Proof.
  intros Hl Hx. induction Hl as [|a l Ha Hl IH]; cbn.
  - constructor; [intros [] | constructor].
  - constructor.
    + rewrite in_app_iff. intros [Hin|[Heq|[]]]; [now apply Ha|].
      apply Hx. now left.
    + apply IH. intros Hin. apply Hx. now right.
Qed.

Lemma existsb_email_none (users : list User) (e : string) :
  existsb (fun user => (email user =? e)%string) users = false ->
  ~ In e (map email users).
Proof.
  intros Hnone Hin. apply in_map_iff in Hin. destruct Hin as [user [Heq Hin]].
  assert (Hsome : existsb (fun user => (email user =? e)%string) users = true)
    by (apply existsb_email_true; now exists user).
  rewrite Hsome in Hnone. discriminate Hnone.
Qed.

(** X8. [create] keeps the emails of the [users] table distinct, with
    no help from the server: if no two rows carry the same email before
    the call, none do after it, whatever the input is and whether or
    not the server enforces its UNIQUE index. *)
Theorem create_keeps_emails_distinct :
  forall refuses (userData : UserData)
         (w : ServiceWorld (RepositoryWorld MySQL.Database)),
    NoDup (map email (MySQL.users (database (repository w)))) ->
    NoDup (map email
             (MySQL.users
                (database
                   (repository
                      (snd (UserService.create
                              (UserRepository.UserRepository (MySQL.pool refuses))
                              userData w)))))).
Proof.
  intros refuses userData w Hdistinct.
  unfold UserService.create. unfold_async.
  cbn [findAllAsync createAsync UserRepository.UserRepository].
  unfold bind at 1. rewrite select_all_keeps_users, map_with_dates.
  unfold ret at 1.
  destruct (existsb _ (MySQL.users (database (repository w)))) eqn:Hexists.
  - exact Hdistinct.
  - pose proof (createAsync_over_table refuses userData
                  (mkRepositoryWorld (database (repository w))
                     (issued (repository w) ++ [("SELECT * FROM users", [])])
                     (logged (repository w)))) as Hcreate.
    cbv zeta in Hcreate. cbn [database] in Hcreate.
    cbn [repository trace].
    destruct (refuses _ _) as [e|]; destruct Hcreate as [w1 [Hrun Hdb]];
      rewrite Hrun; cbn [snd repository]; rewrite Hdb.
    + exact Hdistinct.
    + cbn [MySQL.users]. rewrite map_app. cbn [map email].
      apply NoDup_snoc; [exact Hdistinct|].
      now apply existsb_email_none.
Qed.

Lemma create_keeps_emails_distinct_witness :
  NoDup (map email
           (MySQL.users
              (database
                 (repository
                    (snd (UserService.create
                            (UserRepository.UserRepository (MySQL.pool mocks.lenient))
                            (mkUserData "Duplicate" "alice@example.com" (Some 30))
                            (mocks.table mocks.mockUsers))))))).
Proof.
  apply create_keeps_emails_distinct.
  cbn. constructor; [intros [H|[]]; discriminate H|].
  constructor; [intros []|constructor].
Defined.

Lemma NoDup_map_inj {A B} (f : A -> B) (l : list A) (a b : A) :
  NoDup (map f l) -> In a l -> In b l -> f a = f b -> a = b.
Proof.
  induction l as [|x l IH]; cbn; intros Hnodup Ha Hb Heq; [contradiction|].
  inversion Hnodup as [|y ys Hx Hl]; subst.
  destruct Ha as [Ha|Ha], Hb as [Hb|Hb].
  - congruence.
  - subst x. exfalso. apply Hx. rewrite Heq. now apply in_map.
  - subst x. exfalso. apply Hx. rewrite <- Heq. now apply in_map.
  - now apply IH.
Qed.

(** Writing the rows of one identifier keeps the emails distinct when
    the email written is carried by no row of another identifier. *)
Lemma rewrite_keeps_emails_distinct (id_ : Z) (write : User -> User)
      (rows : list User) :
  (forall r, id (write r) = id r) ->
  NoDup (map id rows) ->
  NoDup (map email rows) ->
  (forall r r', In r rows -> In r' rows -> id r = id_ -> id r' <> id_ ->
                email r' <> email (write r)) ->
  NoDup (map email (map (fun r => if id r =? id_ then write r else r) rows)).
Proof.
  intros Hid. induction rows as [|r rows IH]; intros Hids Hemails Hother;
    [constructor|].
  cbn [map] in *. inversion Hids as [|i0 ids Hi His]; subst.
  inversion Hemails as [|e0 emails He Hes]; subst.
  constructor.
  - intros Hin. apply in_map_iff in Hin. destruct Hin as [r2 [Heq Hin]].
    apply in_map_iff in Hin. destruct Hin as [r' [Hr2 Hr']]. subst r2.
    assert (Hdiff : id r' <> id r).
    { intros Hsame. apply Hi. rewrite <- Hsame. now apply in_map. }
    destruct (Z.eqb_spec (id r) id_) as [Hr|Hr].
    + destruct (Z.eqb_spec (id r') id_) as [Hr'id|Hr'id]; [congruence|].
      apply (Hother r r'); [now left | now right | exact Hr | exact Hr'id | exact Heq].
    + destruct (Z.eqb_spec (id r') id_) as [Hr'id|Hr'id].
      * apply (Hother r' r); [now right | now left | exact Hr'id | exact Hr|].
        now symmetry.
      * apply He. rewrite <- Heq. now apply in_map.
  - apply IH; [exact His | exact Hes|].
    intros a b Ha Hb. apply Hother; now right.
Qed.

(** What [updateAsync] leaves in the table: the rows as they were, or
    the rows of the identifier written with the supplied email. *)
Lemma updateAsync_rows_over_table (refuses : list User -> User -> option Error)
      (id_ : Z) (user : PartialUserData) (w : RepositoryWorld MySQL.Database) :
  let rows' := MySQL.users (database
                              (snd (UserRepository.updateAsync (MySQL.pool refuses)
                                      id_ user w))) in
  rows' = MySQL.users (database w)
  \/ exists write : User -> User,
      (forall r, id (write r) = id r)
      /\ (forall r, email (write r)
                    = match partial_email user with Some e => e | None => email r end)
      /\ rows' = map (fun r => if id r =? id_ then write r else r)
                     (MySQL.users (database w)).
Proof.
  intros rows'. subst rows'.
  destruct (UserRepository.updateFields user) as [|field fields] eqn:Hfields.
  - left. destruct (updateFields_empty _ Hfields) as [Hname [Hemail Hage]].
    destruct user as [n e a]. cbn in Hname, Hemail, Hage. subst.
    change (UserRepository.updateAsync (MySQL.pool refuses) id_
              (mkPartial None None None) w)
      with (UserRepository.findByIdAsync (MySQL.pool refuses) id_ w).
    now rewrite findByIdAsync_over_table.
  - assert (Hnonempty : UserRepository.updateFields user <> [])
      by (rewrite Hfields; discriminate).
    destruct (updateAsync_over_table refuses id_ user w Hnonempty)
      as [write [Hwrite [[e [w' [Hrun [Hdb _]]]]|[w' [Hrun Hrows]]]]];
      rewrite Hrun; cbn [snd].
    + left. now rewrite Hdb.
    + right. exists write. split; [intros r; apply Hwrite|].
      split; [intros r; apply Hwrite | exact Hrows].
Qed.

Lemma map_id_after_rewrite (id_ : Z) (write : User -> User) (rows : list User) :
  (forall r, id (write r) = id r) ->
  map id (map (fun r => if id r =? id_ then write r else r) rows) = map id rows.
Proof.
  intros Hid. induction rows as [|r rows IH]; [reflexivity|].
  cbn [map]. rewrite IH. destruct (id r =? id_); [now rewrite Hid | reflexivity].
Qed.

(** After the checks of [update], the email about to be written is
    carried by no row of another identifier. *)
Lemma checked_email_is_free (id_ : Z) (userData : PartialUserData)
      (existing : User) (rows : list User) (write : User -> User) :
  NoDup (map id rows) ->
  NoDup (map email rows) ->
  hd_error (filter (fun r => id r =? id_) rows) = Some existing ->
  partial_email userData <> Some "" ->
  (UserService.email_is_changing userData existing = true ->
   existsb (fun user =>
              match partial_email userData with
              | Some e => (email user =? e)%string && negb (id user =? id_)
              | None => false
              end) rows = false) ->
  (forall r, email (write r)
             = match partial_email userData with Some e => e | None => email r end) ->
  forall r r', In r rows -> In r' rows -> id r = id_ -> id r' <> id_ ->
               email r' <> email (write r).
Proof.
  intros Hids Hemails Hfirst Hnonempty Hscan Hwrite r r' Hr Hr' Hid Hid' Heq.
  rewrite Hwrite in Heq.
  apply first_match_in in Hfirst. destruct Hfirst as [Hexisting Hexisting_id].
  assert (Hsame : existing = r).
  { apply (NoDup_map_inj id rows); [exact Hids | exact Hexisting | exact Hr|].
    congruence. }
  assert (Hown : email r' = email r -> False).
  { intros Hemail. apply Hid'. rewrite <- Hid. f_equal.
    now apply (NoDup_map_inj email rows). }
  destruct (partial_email userData) as [e|] eqn:He; [|now apply Hown].
  unfold UserService.email_is_changing in Hscan. rewrite He in Hscan.
  destruct (String.eqb_spec e "") as [Hempty|_]; [congruence|].
  destruct (String.eqb_spec e (email existing)) as [Hunchanged|_].
  - apply Hown. congruence.
  - specialize (Hscan eq_refl).
    assert (Hfound : existsb (fun user => (email user =? e)%string
                                          && negb (id user =? id_)) rows = true).
    { apply existsb_exists. exists r'. split; [exact Hr'|].
      apply andb_true_iff. split; [now apply String.eqb_eq|].
      apply negb_true_iff. now apply Z.eqb_neq. }
    rewrite Hfound in Hscan. discriminate Hscan.
Qed.

(** X9. [update] keeps the emails of the [users] table distinct, with
    no help from the server, as long as the email supplied is not the
    empty string: if identifiers and emails are pairwise distinct before
    the call, the emails are pairwise distinct after it and the
    identifiers are the same, in the same order. *)
Theorem update_keeps_emails_distinct :
  forall refuses (id_ : Z) (userData : PartialUserData)
         (w : ServiceWorld (RepositoryWorld MySQL.Database)),
    let rows := MySQL.users (database (repository w)) in
    let rows' :=
      MySQL.users
        (database
           (repository
              (snd (UserService.update
                      (UserRepository.UserRepository (MySQL.pool refuses))
                      id_ userData w)))) in
    NoDup (map id rows) ->
    NoDup (map email rows) ->
    partial_email userData <> Some "" ->
    NoDup (map email rows') /\ map id rows' = map id rows.
Proof.
  intros refuses id_ userData w rows rows' Hids Hemails Hnonempty.
  subst rows' rows.
  match goal with |- NoDup (map email ?r) /\ _ => pattern r end.
  match goal with |- ?G _ => set (Good := G) end.
  unfold UserService.update. unfold_async.
  cbn [findByIdAsync findAllAsync updateAsync UserRepository.UserRepository].
  rewrite findByIdAsync_over_table.
  destruct (hd_error (filter (fun r => id r =? id_)
                        (MySQL.users (database (repository w)))))
    as [existing|] eqn:Hfirst; [|now split].
  cbn [repository trace].
  assert (Hafter :
            forall wu,
              database wu = database (repository w) ->
              (UserService.email_is_changing userData existing = true ->
               existsb (fun user =>
                          match partial_email userData with
                          | Some e => (email user =? e)%string && negb (id user =? id_)
                          | None => false
                          end) (MySQL.users (database (repository w))) = false) ->
              Good (MySQL.users
                      (database
                         (snd (UserRepository.updateAsync (MySQL.pool refuses)
                                 id_ userData wu))))).
  { intros wu Hdb Hscan. subst Good. cbv beta.
    pose proof (updateAsync_rows_over_table refuses id_ userData wu) as Hrows.
    cbv zeta in Hrows. rewrite Hdb in Hrows.
    destruct Hrows as [Hrows|[write [Hid [Hemail Hrows]]]]; rewrite Hrows.
    - now split.
    - split; [|now apply map_id_after_rewrite].
      apply rewrite_keeps_emails_distinct; [exact Hid | exact Hids | exact Hemails|].
      now apply (checked_email_is_free id_ userData existing). }
  destruct (UserService.email_is_changing userData existing) eqn:Hchanging.
  - unfold bind at 1. rewrite select_all_keeps_users, map_with_dates.
    unfold ret at 1. cbn [repository trace database]. cbv beta iota.
    match goal with
    | |- context [if ?scan then _ else _] => destruct scan eqn:Hscan
    end; [now split|].
    match goal with
    | |- context [UserRepository.updateAsync ?p ?i ?u ?wu] =>
        specialize (Hafter wu eq_refl (fun _ => eq_refl));
        destruct (UserRepository.updateAsync p i u wu) as [[[updated|]|[e| |]] w3]
    end; exact Hafter.
  - match goal with
    | |- context [UserRepository.updateAsync ?p ?i ?u ?wu] =>
        specialize (Hafter wu eq_refl
                      (fun H => False_ind _ (Bool.diff_false_true H)));
        destruct (UserRepository.updateAsync p i u wu) as [[[updated|]|[e| |]] w3]
    end; exact Hafter.
Qed.

Lemma update_keeps_emails_distinct_witness :
  NoDup (map email
           (MySQL.users
              (database
                 (repository
                    (snd (UserService.update
                            (UserRepository.UserRepository (MySQL.pool mocks.lenient))
                            1 (mkPartial None (Some "bob@example.com") None)
                            (mocks.table mocks.mockUsers))))))).
Proof.
  apply (update_keeps_emails_distinct mocks.lenient 1
           (mkPartial None (Some "bob@example.com") None)
           (mocks.table mocks.mockUsers)).
  - cbn. constructor; [intros [H|[]]; discriminate H|].
    constructor; [intros []|constructor].
  - cbn. constructor; [intros [H|[]]; discriminate H|].
    constructor; [intros []|constructor].
  - discriminate.
Defined.

(* ================================================================== *)
(** * Further properties of the repository                             *)
(* ================================================================== *)

(** X10. A rejection of [pool.query] passes through the repository
    unchanged: each method rejects with the very error the pool gave,
    after logging one line made of its own prefix and the error's
    message, and sends no further statement. This holds for the one
    statement of [findAllAsync], [findByIdAsync] and [deleteAsync], for
    the UPDATE of [updateAsync], and for both the INSERT and the
    re-read of [createAsync]. *)
Theorem repository_rethrows_what_the_pool_threw :
  forall D (pool : Pool D) (w : RepositoryWorld D) (e : Error) (d1 : D),
    let rejected (A : Type) sql values line : Outcome A * RepositoryWorld D :=
      (Rejected e,
       mkRepositoryWorld d1 (issued w ++ [(sql, values)])
         (logged w ++ [line ++ error_message e])) in
    (pool_query pool "SELECT * FROM users" [] (database w) = (Rejected e, d1) ->
     UserRepository.findAllAsync pool w
     = rejected _ "SELECT * FROM users" [] "Error finding all users: ")
    /\ (forall id_,
           pool_query pool "SELECT * FROM users WHERE id = ?" [SqlNumber id_] (database w)
           = (Rejected e, d1) ->
           UserRepository.findByIdAsync pool id_ w
           = rejected _ "SELECT * FROM users WHERE id = ?" [SqlNumber id_]
               "Error finding user by id: ")
    /\ (forall id_,
           pool_query pool "DELETE FROM users WHERE id = ?" [SqlNumber id_] (database w)
           = (Rejected e, d1) ->
           UserRepository.deleteAsync pool id_ w
           = rejected _ "DELETE FROM users WHERE id = ?" [SqlNumber id_]
               "Error deleting user: ")
    /\ (forall id_ user,
           UserRepository.updateFields user <> [] ->
           let sql := "UPDATE users SET "
                        ++ String.concat ", " (UserRepository.updateFields user)
                        ++ " WHERE id = ?" in
           let values := (UserRepository.values user ++ [SqlNumber id_])%list in
           pool_query pool sql values (database w) = (Rejected e, d1) ->
           UserRepository.updateAsync pool id_ user w
           = rejected _ sql values "Error updating user: ")
    /\ (forall user,
           let sql := "INSERT INTO users (name, email, age) VALUES (?, ?, ?)" in
           let values := [SqlString (data_name user); SqlString (data_email user);
                          UserRepository.bind_number (data_age user)] in
           (pool_query pool sql values (database w) = (Rejected e, d1) ->
            UserRepository.createAsync pool user w
            = rejected _ sql values "Error creating user: ")
           /\ (forall result d0,
                  pool_query pool sql values (database w) = (Resolved result, d0) ->
                  pool_query pool "SELECT * FROM users WHERE id = ?"
                    [UserRepository.bind_number (UserRepository.insertId_of result)] d0
                  = (Rejected e, d1) ->
                  UserRepository.createAsync pool user w
                  = (Rejected e,
                     mkRepositoryWorld d1
                       (issued w
                          ++ [(sql, values);
                              ("SELECT * FROM users WHERE id = ?",
                               [UserRepository.bind_number
                                  (UserRepository.insertId_of result)])])
                       (logged w ++ ["Error creating user: " ++ error_message e])))).
Proof.
  intros D pool w e d1 rejected. subst rejected. cbv beta.
  repeat split.
  - intros Hquery.
    unfold UserRepository.findAllAsync, try_catch, bind, UserRepository.query.
    now rewrite Hquery.
  - intros id_ Hquery.
    unfold UserRepository.findByIdAsync, try_catch, bind, UserRepository.query.
    now rewrite Hquery.
  - intros id_ Hquery.
    unfold UserRepository.deleteAsync, try_catch, bind, UserRepository.query.
    now rewrite Hquery.
  - intros id_ user Hfields sql values Hquery.
    unfold UserRepository.updateAsync, try_catch, bind, UserRepository.query.
    rewrite (updateFields_nonempty _ Hfields). fold sql values.
    now rewrite Hquery.
  - intros Hquery.
    unfold UserRepository.createAsync, try_catch, bind, UserRepository.query.
    now rewrite Hquery.
  - intros result d0 Hinsert Hselect.
    unfold UserRepository.createAsync, try_catch, bind, UserRepository.query.
    rewrite Hinsert. cbn [database issued logged]. rewrite Hselect. cbn.
    now rewrite <- app_assoc.
Qed.

Lemma repository_rethrows_what_the_pool_threw_witness :
  UserRepository.deleteAsync (mocks.rejectingPool "Connection lost") 4
    (mkRepositoryWorld tt [] [])
  = (Rejected (mkError "Error" "Connection lost"),
     mkRepositoryWorld tt [("DELETE FROM users WHERE id = ?", [SqlNumber 4])]
       ["Error deleting user: Connection lost"]).
Proof.
  pose proof (repository_rethrows_what_the_pool_threw unit
                (mocks.rejectingPool "Connection lost")
                (mkRepositoryWorld tt [] []) (mkError "Error" "Connection lost") tt)
    as Hrethrow.
  cbv zeta in Hrethrow. destruct Hrethrow as [_ [_ [Hdelete _]]].
  apply (Hdelete 4). reflexivity.
Defined.

(** X11. When the UPDATE of [updateAsync] went through and the re-read
    then fails, the call rejects with the error of the re-read and the
    only line logged is the one of [findByIdAsync]: the promise of the
    re-read is returned without being awaited, so the [catch] of
    [updateAsync] does not see its rejection. *)
Theorem a_failed_reread_is_logged_by_the_lookup_only :
  forall D (pool : Pool D) (id_ : Z) (user : PartialUserData)
         (w : RepositoryWorld D) (insertId affectedRows : Z) (d1 d2 : D) (e : Error),
    let sql := "UPDATE users SET "
                 ++ String.concat ", " (UserRepository.updateFields user)
                 ++ " WHERE id = ?" in
    let values := (UserRepository.values user ++ [SqlNumber id_])%list in
    UserRepository.updateFields user <> [] ->
    pool_query pool sql values (database w)
    = (Resolved (ResultSetHeader insertId affectedRows), d1) ->
    affectedRows <> 0 ->
    pool_query pool "SELECT * FROM users WHERE id = ?" [SqlNumber id_] d1
    = (Rejected e, d2) ->
    UserRepository.updateAsync pool id_ user w
    = (Rejected e,
       mkRepositoryWorld d2
         (issued w ++ [(sql, values);
                       ("SELECT * FROM users WHERE id = ?", [SqlNumber id_])])
         (logged w ++ ["Error finding user by id: " ++ error_message e])).
Proof.
  intros D pool id_ user w insertId affectedRows d1 d2 e sql values
         Hfields Hupdate Haffected Hselect.
  unfold UserRepository.updateAsync, bind, try_catch, UserRepository.query.
  rewrite (updateFields_nonempty _ Hfields). fold sql values.
  rewrite Hupdate. cbn [UserRepository.affectedRows_of].
  destruct affectedRows as [|p|p]; [contradiction| |];
    unfold ret; cbv beta iota;
    unfold UserRepository.findByIdAsync, bind, try_catch, UserRepository.query;
    cbn [database issued logged]; rewrite Hselect; cbn;
    now rewrite <- app_assoc.
Qed.

Lemma a_failed_reread_is_logged_by_the_lookup_only_witness :
  UserRepository.updateAsync (mocks.unreadablePool 1 "Connection lost") 1
    (mkPartial None None (Some 40)) (mkRepositoryWorld tt [] [])
  = (Rejected (mkError "Error" "Connection lost"),
     mkRepositoryWorld tt
       [("UPDATE users SET age = ? WHERE id = ?", [SqlNumber 40; SqlNumber 1]);
        ("SELECT * FROM users WHERE id = ?", [SqlNumber 1])]
       ["Error finding user by id: Connection lost"]).
Proof.
  apply (a_failed_reread_is_logged_by_the_lookup_only unit
           (mocks.unreadablePool 1 "Connection lost") 1
           (mkPartial None None (Some 40)) (mkRepositoryWorld tt [] [])
           0 1 tt tt (mkError "Error" "Connection lost")).
  - discriminate.
  - reflexivity.
  - discriminate.
  - reflexivity.
Defined.

(** X12. Over the [users] table [deleteAsync] never rejects; it resolves
    with true exactly when some row carries the identifier, and leaves
    the rows of every other identifier, in their order, and none of
    that identifier. *)
Theorem deleteAsync_removes_the_rows_of_the_id :
  forall refuses (id_ : Z) (w : RepositoryWorld MySQL.Database),
    let rows := MySQL.users (database w) in
    exists (deleted : bool) (w' : RepositoryWorld MySQL.Database),
      UserRepository.deleteAsync (MySQL.pool refuses) id_ w = (Resolved deleted, w')
      /\ (deleted = true <-> exists row, In row rows /\ id row = id_)
      /\ MySQL.users (database w') = filter (fun r => negb (id r =? id_)) rows
      /\ (forall row, In row (MySQL.users (database w'))
                      <-> In row rows /\ id row <> id_).
Proof.
  intros refuses id_ w rows. subst rows.
  rewrite deleteAsync_over_table. do 2 eexists. split; [reflexivity|].
  cbn [database MySQL.users]. split; [|split; [reflexivity|]].
  - split.
    + intros Hdeleted. apply Z.ltb_lt in Hdeleted.
      destruct (filter (fun r => id r =? id_) (MySQL.users (database w)))
        as [|row rest] eqn:Hrows; [cbn in Hdeleted; lia|].
      exists row. apply (first_match_in id_). now rewrite Hrows.
    + intros Hsome. apply filter_in_nonempty in Hsome.
      destruct Hsome as [row [rest Hrows]]. rewrite Hrows.
      apply Z.ltb_lt. cbn [List.length]. lia.
  - intros row. rewrite filter_In. split; intros [Hin Hid]; split; try exact Hin.
    + apply negb_true_iff in Hid. now apply Z.eqb_neq.
    + apply negb_true_iff. now apply Z.eqb_neq.
Qed.

(* ================================================================== *)
(** * Further properties of the schemas                                *)
(* ================================================================== *)

Lemma parse_accepts_iff_valid (schema : zod.ZodType) (data : JSON) :
  (exists output, zod.parse schema data = zod.Parsed output)
  <-> zod.status (schema (Some data)) = zod.valid.
Proof.
  unfold zod.parse. destruct (zod.status (schema (Some data))); split;
    try (intros [output H]; discriminate H); try discriminate; eauto.
Qed.

(** The status of an object schema: aborted on anything but an object,
    the merge of the statuses of its keys otherwise. *)
Lemma object_status (shape : list (string * zod.ZodType))
      (entries : list (string * JSON)) :
  zod.status (zod.object shape (Some (JObject entries)))
  = zod.merge_status
      (map (fun field => zod.status (snd field (zod.lookup (fst field) entries)))
           shape).
Proof. unfold zod.object. cbn [zod.status]. now rewrite map_map. Qed.

Lemma object_needs_an_object (shape : list (string * zod.ZodType))
      (input : option JSON) :
  zod.status (zod.object shape input) = zod.valid ->
  exists entries, input = Some (JObject entries).
Proof.
  destruct input as [[]|]; cbn; intros H; try discriminate H. eauto.
Qed.

Lemma merge_status_valid (statuses : list zod.ParseStatus) :
  zod.merge_status statuses = zod.valid <-> Forall (fun s => s = zod.valid) statuses.
Proof.
  unfold zod.merge_status. induction statuses as [|s rest IH]; cbn.
  - split; [constructor | reflexivity].
  - destruct s; cbn.
    + rewrite IH. split; [now constructor | intros H; now inversion H].
    + split; [|intros H; inversion H; discriminate].
      destruct (existsb _ rest); discriminate.
    + split; [discriminate | intros H; inversion H; discriminate].
Qed.

Lemma name_is_valid (message : string) (input : option JSON) :
  zod.status (zod.string_ [zod.min_length 2 message] input) = zod.valid
  <-> exists n, input = Some (JString n) /\ 2 <= Z.of_nat (utf16_length n).
Proof.
  unfold zod.string_, zod.min_length.
  destruct input as [[| | |s| |]|]; cbn -[utf16_length];
    try (split; [discriminate | intros [n [H _]]; discriminate H]).
  destruct (Z.ltb_spec (Z.of_nat (utf16_length s)) 2); cbn -[utf16_length]; split;
    try discriminate; try (intros _; reflexivity).
  - intros [n [Hn Hlen]]. injection Hn as <-. lia.
  - intros _. exists s. split; [reflexivity | lia].
Qed.

Lemma email_is_valid (is_email : string -> bool) (message : string)
      (input : option JSON) :
  zod.status (zod.string_ [zod.email_ is_email message] input) = zod.valid
  <-> exists e, input = Some (JString e) /\ is_email e = true.
Proof.
  unfold zod.string_, zod.email_.
  destruct input as [[| | |s| |]|]; cbn;
    try (split; [discriminate | intros [n [H _]]; discriminate H]).
  destruct (is_email s) eqn:Hs; cbn; split; try discriminate;
    try (intros _; reflexivity).
  - intros _. now exists s.
  - intros [e [He Hemail]]. injection He as <-. congruence.
Qed.

(** An integer is a number: NaN is none. *)
Lemma isInteger_is_not_NaN (x : PrimFloat.float) :
  Number_isInteger x = true -> PrimFloat.is_nan x = false.
Proof.
  unfold Number_isInteger, FloatOps.Prim2SF.
  destruct (PrimFloat.is_nan x); [discriminate | reflexivity].
Qed.

Lemma age_is_valid (message : string) (input : option JSON) :
  zod.status (zod.optional
                (zod.number_ [zod.int_; zod.min_value PrimFloat.zero message]) input)
  = zod.valid
  <-> input = None
      \/ exists x, input = Some (JNumber x)
                   /\ Number_isInteger x = true
                   /\ PrimFloat.ltb x PrimFloat.zero = false.
Proof.
  unfold zod.optional, zod.number_, zod.int_, zod.min_value, zod.invalid_type,
    zod.INVALID, zod.checked, zod.run_checks.
  destruct input as [[| |x| | |]|]; cbn [zod.status flat_map app];
    try (split; [discriminate | intros [H|[y [H _]]]; discriminate H]);
    [|split; [now left | reflexivity]].
  destruct (PrimFloat.is_nan x) eqn:Hnan; cbn [zod.status].
  - split; [discriminate|].
    intros [H|[y [Hy [Hint _]]]]; [discriminate H|]. injection Hy as <-.
    apply isInteger_is_not_NaN in Hint. congruence.
  - destruct (Number_isInteger x) eqn:Hint;
      destruct (PrimFloat.ltb x PrimFloat.zero) eqn:Hmin; cbn [app]; split;
      try discriminate; try (intros _; reflexivity).
    + intros [H|[y [Hy [_ Hle]]]]; [discriminate H|]. injection Hy as <-.
      congruence.
    + intros _. right. now exists x.
    + intros [H|[y [Hy [Hy' _]]]]; [discriminate H|]. injection Hy as <-.
      congruence.
    + intros [H|[y [Hy [Hy' _]]]]; [discriminate H|]. injection Hy as <-.
      congruence.
Qed.

(** X13. CreateUserSchema accepts a request exactly when its body is an
    object whose [name] is a string of at least two characters, whose
    [email] is a string matching the email pattern, and whose [age] is
    either absent or a non-negative integer; nothing else of the
    request matters. *)
Theorem CreateUserSchema_accepts_exactly :
  forall (is_email : string -> bool) (body query params : JSON),
    (exists output,
        zod.parse (userModel.CreateUserSchema is_email)
          (JObject [("body", body); ("query", query); ("params", params)])
        = zod.Parsed output)
    <-> exists entries,
        body = JObject entries
        /\ (exists n, zod.lookup "name" entries = Some (JString n)
                      /\ 2 <= Z.of_nat (utf16_length n))
        /\ (exists e, zod.lookup "email" entries = Some (JString e)
                      /\ is_email e = true)
        /\ (zod.lookup "age" entries = None
            \/ exists x, zod.lookup "age" entries = Some (JNumber x)
                         /\ Number_isInteger x = true
                         /\ PrimFloat.ltb x PrimFloat.zero = false).
Proof.
  intros is_email body query params.
  rewrite parse_accepts_iff_valid. unfold userModel.CreateUserSchema.
  rewrite object_status. cbn [map fst snd zod.lookup String.eqb Ascii.eqb Bool.eqb].
  rewrite merge_status_valid. split.
  - intros Hall. pose proof (Forall_inv Hall) as Hbody. cbv beta in Hbody.
    destruct (object_needs_an_object _ _ Hbody) as [entries Hentries].
    injection Hentries as ->. exists entries. split; [reflexivity|].
    rewrite object_status in Hbody. cbn [map fst snd] in Hbody.
    apply merge_status_valid in Hbody.
    pose proof (Forall_inv Hbody) as Hname.
    pose proof (Forall_inv (Forall_inv_tail Hbody)) as Hemail.
    pose proof (Forall_inv (Forall_inv_tail (Forall_inv_tail Hbody))) as Hage.
    cbv beta in Hname, Hemail, Hage.
    split; [now apply name_is_valid in Hname|].
    split; [now apply email_is_valid in Hemail | now apply age_is_valid in Hage].
  - intros [entries [-> [Hname [Hemail Hage]]]].
    constructor; [|constructor].
    rewrite object_status. cbn [map fst snd]. apply merge_status_valid.
    constructor; [now apply name_is_valid|].
    constructor; [now apply email_is_valid|].
    constructor; [now apply age_is_valid | constructor].
Qed.

Lemma optional_is_valid (schema : zod.ZodType) (input : option JSON) :
  zod.status (zod.optional schema input) = zod.valid
  <-> input = None \/ zod.status (schema input) = zod.valid.
Proof.
  unfold zod.optional. destruct input as [v|]; cbn.
  - split; [now right | intros [H|H]; [discriminate H | exact H]].
  - split; [now left | reflexivity].
Qed.

Lemma refine_is_valid (schema : zod.ZodType) (check : option JSON -> bool)
      (message : string) (input : option JSON) :
  zod.status (zod.refine schema check message input) = zod.valid
  <-> zod.status (schema input) = zod.valid
      /\ check (zod.value (schema input)) = true.
Proof.
  unfold zod.refine.
  destruct (zod.status (schema input)) eqn:Hstatus;
    destruct (check (zod.value (schema input))) eqn:Hcheck; cbn;
    rewrite ?Hstatus; split; try discriminate; try (intros [H1 H2]; discriminate);
    try (intros _; split; reflexivity).
Qed.

(** A valid string or number comes out as it went in. *)
Lemma valid_string_value (checks : list (string -> option string))
      (input : option JSON) :
  zod.status (zod.optional (zod.string_ checks) input) = zod.valid ->
  zod.value (zod.optional (zod.string_ checks) input) = input.
Proof.
  unfold zod.optional, zod.string_.
  destruct input as [[| | |s| |]|]; cbn; intros H; try discriminate H; reflexivity.
Qed.

Lemma valid_number_value (checks : list (PrimFloat.float -> option string))
      (input : option JSON) :
  zod.status (zod.optional (zod.number_ checks) input) = zod.valid ->
  zod.value (zod.optional (zod.number_ checks) input) = input.
Proof.
  unfold zod.optional, zod.number_, zod.invalid_type, zod.INVALID, zod.checked.
  destruct input as [[| |x| | |]|]; cbn [zod.status zod.value]; intros H;
    try discriminate H; try reflexivity.
  destruct (PrimFloat.is_nan x); [discriminate H | reflexivity].
Qed.

Lemma object_value (shape : list (string * zod.ZodType))
      (entries : list (string * JSON)) :
  zod.status (zod.object shape (Some (JObject entries))) = zod.valid ->
  zod.value (zod.object shape (Some (JObject entries)))
  = Some (JObject
            (flat_map (fun field =>
                         match zod.value (snd field (zod.lookup (fst field) entries)) with
                         | Some v => [(fst field, v)]
                         | None => []
                         end) shape)).
Proof.
  unfold zod.object. cbn [zod.status zod.value]. intros Hvalid. rewrite Hvalid.
  do 2 f_equal. clear Hvalid. induction shape as [|field shape IH]; [reflexivity|].
  cbn [map flat_map fst snd]. now rewrite IH.
Qed.

(** X14. UpdateUserSchema accepts a request exactly when the identifier
    schema accepts its parameters and its body is an object in which
    each of [name], [email] and [age] is absent or valid as for a
    create, and at least one of the three is present. Keys the schema
    does not name do not count: a body holding only such keys is
    refused like the empty one. *)
Theorem UpdateUserSchema_accepts_exactly :
  forall (commonValidations_id : zod.ZodType) (is_email : string -> bool)
         (body query params : JSON),
    (exists output,
        zod.parse (userModel.UpdateUserSchema commonValidations_id is_email)
          (JObject [("body", body); ("query", query); ("params", params)])
        = zod.Parsed output)
    <-> zod.status (zod.object [("id", commonValidations_id)] (Some params)) = zod.valid
        /\ exists entries,
            body = JObject entries
            /\ (zod.lookup "name" entries = None
                \/ exists n, zod.lookup "name" entries = Some (JString n)
                             /\ 2 <= Z.of_nat (utf16_length n))
            /\ (zod.lookup "email" entries = None
                \/ exists e, zod.lookup "email" entries = Some (JString e)
                             /\ is_email e = true)
            /\ (zod.lookup "age" entries = None
                \/ exists x, zod.lookup "age" entries = Some (JNumber x)
                             /\ Number_isInteger x = true
                             /\ PrimFloat.ltb x PrimFloat.zero = false)
            /\ (zod.lookup "name" entries <> None
                \/ zod.lookup "email" entries <> None
                \/ zod.lookup "age" entries <> None).
Proof.
  intros cid is_email body query params.
  rewrite parse_accepts_iff_valid. unfold userModel.UpdateUserSchema.
  rewrite object_status. cbn [map fst snd zod.lookup String.eqb Ascii.eqb Bool.eqb].
  rewrite merge_status_valid.
  set (name_schema := zod.optional
                        (zod.string_ [zod.min_length 2 "Name must be at least 2 characters"])).
  set (email_schema := zod.optional
                         (zod.string_ [zod.email_ is_email "Invalid email format"])).
  set (age_schema := zod.optional
                       (zod.number_ [zod.int_;
                                     zod.min_value PrimFloat.zero "Age must be a positive number"])).
  assert (Hfields :
            forall entries,
              zod.status (zod.object [("name", name_schema); ("email", email_schema);
                                      ("age", age_schema)] (Some (JObject entries)))
              = zod.valid
              <-> zod.status (name_schema (zod.lookup "name" entries)) = zod.valid
                  /\ zod.status (email_schema (zod.lookup "email" entries)) = zod.valid
                  /\ zod.status (age_schema (zod.lookup "age" entries)) = zod.valid).
  { intros entries. rewrite object_status. cbn [map fst snd].
    rewrite merge_status_valid. split.
    - intros Hall.
      split; [exact (Forall_inv Hall)|].
      split; [exact (Forall_inv (Forall_inv_tail Hall))|].
      exact (Forall_inv (Forall_inv_tail (Forall_inv_tail Hall))).
    - intros [Hn [He Ha]]. repeat constructor; assumption. }
  assert (Hkeys :
            forall entries,
              zod.status (name_schema (zod.lookup "name" entries)) = zod.valid ->
              zod.status (email_schema (zod.lookup "email" entries)) = zod.valid ->
              zod.status (age_schema (zod.lookup "age" entries)) = zod.valid ->
              (0 <? Z.of_nat
                      (List.length
                         (zod.Object_keys
                            (zod.value
                               (zod.object
                                  [("name", name_schema); ("email", email_schema);
                                   ("age", age_schema)] (Some (JObject entries)))))))
              = true
              <-> (zod.lookup "name" entries <> None
                   \/ zod.lookup "email" entries <> None
                   \/ zod.lookup "age" entries <> None)).
  { intros entries Hn He Ha.
    rewrite object_value by (apply Hfields; repeat split; assumption).
    cbn [flat_map fst snd].
    unfold name_schema, email_schema, age_schema in *.
    rewrite (valid_string_value _ _ Hn), (valid_string_value _ _ He),
      (valid_number_value _ _ Ha).
    destruct (zod.lookup "name" entries), (zod.lookup "email" entries),
      (zod.lookup "age" entries); cbn; split; intros H;
      try reflexivity; try discriminate H;
      try (left; discriminate); try (right; left; discriminate);
      try (right; right; discriminate).
    destruct H as [H|[H|H]]; contradiction. }
  split.
  - intros Hall. split; [exact (Forall_inv Hall)|].
    pose proof (Forall_inv (Forall_inv_tail Hall)) as Hbody. cbv beta in Hbody.
    apply refine_is_valid in Hbody. destruct Hbody as [Hobject Hcheck].
    destruct (object_needs_an_object _ _ Hobject) as [entries Hentries].
    injection Hentries as ->. exists entries. split; [reflexivity|].
    apply Hfields in Hobject. destruct Hobject as [Hn [He Ha]].
    apply (Hkeys entries Hn He Ha) in Hcheck.
    unfold name_schema, email_schema, age_schema in Hn, He, Ha.
    apply optional_is_valid in Hn. apply optional_is_valid in He.
    apply age_is_valid in Ha.
    split; [destruct Hn as [Hn|Hn]; [now left | right; now apply name_is_valid in Hn]|].
    split; [destruct He as [He|He]; [now left | right; now apply email_is_valid in He]|].
    split; [exact Ha | exact Hcheck].
  - intros [Hparams [entries [-> [Hn [He [Ha Hsome]]]]]].
    assert (Hn' : zod.status (name_schema (zod.lookup "name" entries)) = zod.valid).
    { apply optional_is_valid. destruct Hn as [Hn|Hn];
        [now left | right; now apply name_is_valid]. }
    assert (He' : zod.status (email_schema (zod.lookup "email" entries)) = zod.valid).
    { apply optional_is_valid. destruct He as [He|He];
        [now left | right; now apply email_is_valid]. }
    assert (Ha' : zod.status (age_schema (zod.lookup "age" entries)) = zod.valid)
      by now apply age_is_valid.
    constructor; [exact Hparams|]. constructor; [|constructor].
    apply refine_is_valid. split.
    + apply Hfields. repeat split; assumption.
    + now apply (Hkeys entries Hn' He' Ha').
Qed.

(* ================================================================== *)
(** * Properties of the database setup                                 *)
(* ================================================================== *)

Ltac unfold_setup :=
  unfold database.testConnection, database.initializeDatabase,
    database.seedDatabase, database.first_count in *;
  unfold try_catch, bind, database.getConnection, database.query,
    database.release, database.logger_info, database.logger_error,
    message_of, ret, throw in *;
  cbn [setup_database setup_events fst snd] in *.

(** The INSERT loop of the seeder obtains and gives back no connection:
    it only sends statements, and stops at the first that rejects. *)
Lemma seeding_loop_only_queries {D} (pool : ConnectionPool D) (items : list UserData)
      (w : SetupWorld D) :
  exists new,
    setup_events
      (snd (for_of items
              (fun user =>
                 _ <- database.query pool
                        "INSERT INTO users (name, email, age) VALUES (?, ?, ?)"
                        [SqlString (data_name user); SqlString (data_email user);
                         UserRepository.bind_number (data_age user)] ;;
                 ret tt) w))
    = (setup_events w ++ new)%list
    /\ Forall (fun ev => exists sql values, ev = Queried sql values) new.
Proof.
  revert w. induction items as [|user items IH]; intros w.
  - exists []. cbn. split; [now rewrite app_nil_r | constructor].
  - cbn [for_of]. unfold bind at 1. unfold bind at 1. unfold database.query at 1.
    destruct (connection_query pool _ _ (setup_database w)) as [[rows|ex] d1].
    + unfold ret at 1.
      match goal with
      | |- context [for_of items ?body ?w1] =>
          destruct (IH w1) as [new [Hevents Hqueries]]
      end.
      rewrite Hevents. cbn [setup_events]. rewrite <- app_assoc.
      eexists. split; [reflexivity|].
      constructor; [eauto | exact Hqueries].
    + cbn [snd setup_events]. eexists. split; [reflexivity|].
      constructor; [eauto | constructor].
Qed.

Lemma queries_hold_no_connection_event (new : list SetupEvent) :
  Forall (fun ev => exists sql values, ev = Queried sql values) new ->
  ~ In Released new /\ ~ In Acquired new.
Proof.
  intros Hqueries. rewrite Forall_forall in Hqueries.
  split; intros Hin; destruct (Hqueries _ Hin) as [sql [values H]]; discriminate H.
Qed.

(** An event is among those of a run exactly when the run went a
    certain way: each direction is read off the list of events. *)
Ltac event_direction :=
  let H := fresh "H" in
  intros H;
  first
    [ discriminate H
    | reflexivity
    | eexists; reflexivity
    | match type of H with
      | ex _ => let d := fresh "d" in destruct H as [d H]; discriminate H
      end
    | solve [auto 10]
    | repeat (destruct H as [H|H]; try discriminate H);
      first [contradiction | discriminate H] ].

Ltac event_iff :=
  rewrite ?in_app_iff; cbn [In]; split; event_direction.

(** X15. [initializeDatabase] and [seedDatabase] give their connection
    back exactly when they succeed: the connection is released if and
    only if the call resolves, while it was obtained whenever
    [getConnection] resolved. So a statement that rejects leaves the
    connection out of the pool. [testConnection] does not reject, as
    long as what [getConnection] rejects with is neither [null] nor
    [undefined] (the driver rejects with errors); it resolves with true
    exactly when a connection was obtained, and then it has released
    it. *)
Theorem connection_is_released_exactly_on_success :
  forall D (pool : ConnectionPool D) (w : SetupWorld D),
    let connected := exists d, pool_getConnection pool (setup_database w)
                               = (Resolved tt, d) in
    (exists events,
        setup_events (snd (database.initializeDatabase pool w))
        = (setup_events w ++ events)%list
        /\ (In Acquired events <-> connected)
        /\ (In Released events
            <-> fst (database.initializeDatabase pool w) = Resolved tt))
    /\ (exists events,
           setup_events (snd (database.seedDatabase pool w))
           = (setup_events w ++ events)%list
           /\ (In Acquired events <-> connected)
           /\ (In Released events
               <-> fst (database.seedDatabase pool w) = Resolved tt))
    /\ ((forall ex d, pool_getConnection pool (setup_database w) = (Rejected ex, d) ->
                      nullish ex = false) ->
        exists events ok,
          setup_events (snd (database.testConnection pool w))
          = (setup_events w ++ events)%list
          /\ fst (database.testConnection pool w) = Resolved ok
          /\ (ok = true <-> connected)
          /\ (ok = true <-> In Acquired events)
          /\ (ok = true <-> In Released events)).
Proof.
  intros D pool w connected. subst connected.
  split; [|split].
  - unfold_setup.
    destruct (pool_getConnection pool (setup_database w)) as [[[]|[e| |]] d1];
      cbn [setup_database setup_events fst snd];
      [destruct (connection_query pool CREATE_TABLE_users [] d1)
         as [[rows|[e| |]] d2];
       cbn [setup_database setup_events fst snd]|..];
      rewrite <- ?app_assoc, ?app_nil_r;
      (first [eexists; split; [reflexivity|]
             | exists []; split; [now rewrite app_nil_r|]]);
      split; event_iff.
  - pose proof (seeding_loop_only_queries pool database.users) as Hloop.
    unfold database.seedDatabase.
    remember (for_of database.users _) as loop eqn:Hdef. clear Hdef.
    unfold_setup.
    destruct (pool_getConnection pool (setup_database w)) as [[[]|[e| |]] d1];
      cbn [setup_database setup_events fst snd];
      [destruct (connection_query pool "SELECT COUNT(*) as count FROM users" [] d1)
         as [[[[|count counts]|[[|row others]|insertId affected]]|[e| |]] d2];
       cbn [setup_database setup_events fst snd];
       try (destruct (0 <? count); cbn [setup_database setup_events fst snd]);
       try match goal with
           | |- context [loop ?w1] =>
               destruct (Hloop w1) as [new [Hevents Hqueries]];
               destruct (queries_hold_no_connection_event _ Hqueries)
                 as [Hno_release Hno_acquire];
               destruct (loop w1) as [[[]|[e| |]] w2];
               cbn [snd fst setup_events setup_database] in *;
               rewrite Hevents
           end|..];
      rewrite <- ?app_assoc;
      (first [eexists; split; [reflexivity|]
             | exists []; split; [now rewrite app_nil_r|]]);
      split; event_iff.
  - intros Hsafe. unfold_setup.
    destruct (pool_getConnection pool (setup_database w)) as [[[]|[e| |]] d1] eqn:Hget;
      cbn [setup_database setup_events fst snd];
      try discriminate (Hsafe _ _ eq_refl);
      rewrite <- ?app_assoc;
      do 2 eexists; (split; [reflexivity|]); (split; [reflexivity|]);
      (split; [|split]); event_iff.
Qed.

Lemma connection_is_released_exactly_on_success_witness :
  database.testConnection (setup_mocks.noConnections "Access denied")
    (mkSetupWorld tt [])
  = (Resolved false,
     mkSetupWorld tt [LoggedError "Database connection failed: Access denied"]).
Proof.
  destruct (proj2 (proj2 (connection_is_released_exactly_on_success unit
                            (setup_mocks.noConnections "Access denied")
                            (mkSetupWorld tt []))))
    as [events [ok [Hevents [Hrun [Hconnected _]]]]].
  - intros ex d Hget. injection Hget as <- _. reflexivity.
  - destruct ok.
    + destruct (proj1 Hconnected eq_refl) as [d Hget]. discriminate Hget.
    + reflexivity.
Defined.

(* ------------------------------------------------------------------ *)
(** ** The seeder over the [users] table                               *)
(* ------------------------------------------------------------------ *)

Lemma count_statement (refuses : list User -> User -> option Error)
      (db : MySQL.Database) :
  MySQLConnection.connection_query refuses "SELECT COUNT(*) as count FROM users" [] db
  = (Resolved (CountRows [Z.of_nat (List.length (MySQL.users db))]), db).
Proof. reflexivity. Qed.

Lemma insert_statement_on_connection (refuses : list User -> User -> option Error)
      (user : UserData) (db : MySQL.Database) :
  MySQLConnection.connection_query refuses
    "INSERT INTO users (name, email, age) VALUES (?, ?, ?)"
    [SqlString (data_name user); SqlString (data_email user);
     UserRepository.bind_number (data_age user)] db
  = match MySQL.insert refuses (data_name user) (data_email user) (data_age user) db with
    | (Resolved result, db') => (Resolved (UserRows result), db')
    | (Rejected e, db') => (Rejected e, db')
    end.
Proof.
  unfold MySQLConnection.connection_query.
  cbn [String.eqb Ascii.eqb Bool.eqb]. now rewrite insert_statement.
Qed.

(** The INSERT loop over the table: the table never shrinks, and when
    the loop runs to its end it holds one more row per item. *)
Lemma seeding_loop_over_table (refuses : list User -> User -> option Error)
      (items : list UserData) (w w' : SetupWorld MySQL.Database)
      (outcome : Outcome unit) :
  for_of items
    (fun user =>
       _ <- database.query (MySQLConnection.pool refuses)
              "INSERT INTO users (name, email, age) VALUES (?, ?, ?)"
              [SqlString (data_name user); SqlString (data_email user);
               UserRepository.bind_number (data_age user)] ;;
       ret tt) w = (outcome, w') ->
  (List.length (MySQL.users (setup_database w))
   <= List.length (MySQL.users (setup_database w')))%nat
  /\ (outcome = Resolved tt ->
      List.length (MySQL.users (setup_database w'))
      = (List.length (MySQL.users (setup_database w)) + List.length items)%nat).
Proof.
  unfold bind, database.query, ret.
  revert w. induction items as [|user items IH]; intros w Hrun.
  - cbn in Hrun. injection Hrun as <- <-. split; [lia | intros _; cbn; lia].
  - cbn [for_of] in Hrun. unfold bind in Hrun.
    cbn [connection_query MySQLConnection.pool] in Hrun.
    rewrite insert_statement_on_connection in Hrun. unfold MySQL.insert in Hrun.
    destruct (refuses _ _) as [e|].
    + injection Hrun as <- <-. cbn. split; [lia | discriminate].
    + unfold MySQL.header in Hrun. apply IH in Hrun.
      cbn [setup_database MySQL.users] in Hrun.
      rewrite length_app in Hrun. cbn [List.length] in *.
      destruct Hrun as [Hgrows Hall]. split; [lia|].
      intros Hresolved. rewrite (Hall Hresolved). lia.
Qed.

(** [seedDatabase] over the table: a skip when the table holds a row,
    the INSERT loop otherwise. *)
Lemma seedDatabase_over_table (refuses : list User -> User -> option Error)
      (w : SetupWorld MySQL.Database) :
  database.seedDatabase (MySQLConnection.pool refuses) w
  = match MySQL.users (setup_database w) with
    | _ :: _ =>
        (Resolved tt,
         mkSetupWorld (setup_database w)
           (setup_events w
              ++ [Acquired; Queried "SELECT COUNT(*) as count FROM users" [];
                  LoggedInfo "Database already seeded, skipping seed operation";
                  Released]))
    | [] =>
        match for_of database.users
                (fun user =>
                   _ <- database.query (MySQLConnection.pool refuses)
                          "INSERT INTO users (name, email, age) VALUES (?, ?, ?)"
                          [SqlString (data_name user); SqlString (data_email user);
                           UserRepository.bind_number (data_age user)] ;;
                   ret tt)
                (mkSetupWorld (setup_database w)
                   (setup_events w
                      ++ [Acquired; Queried "SELECT COUNT(*) as count FROM users" []]))
        with
        | (Resolved _, w1) =>
            (Resolved tt,
             mkSetupWorld (setup_database w1)
               (setup_events w1
                  ++ [LoggedInfo "Database seeded successfully with sample data";
                      Released]))
        | (Rejected ex, w1) =>
            (text <- message_of ex ;;
             database.logger_error ("Database seeding failed: " ++ text) ;;;
             throw ex) w1
        end
    end.
Proof.
  unfold database.seedDatabase.
  remember (for_of database.users _) as loop eqn:Hdef. clear Hdef.
  unfold_setup. cbn [pool_getConnection connection_query MySQLConnection.pool].
  unfold ret at 1. rewrite count_statement.
  cbn [setup_database setup_events fst snd]. rewrite <- !app_assoc.
  destruct (MySQL.users (setup_database w)) as [|row rows].
  - cbn [List.length Z.of_nat Z.ltb Z.compare app].
    destruct (loop _) as [[[]|[e| |]] w1]; cbn [setup_database setup_events];
      now rewrite <- ?app_assoc.
  - cbn [List.length]. rewrite Nat2Z.inj_succ.
    replace (0 <? Z.succ (Z.of_nat (List.length rows))) with true
      by (symmetry; apply Z.ltb_lt; lia).
    cbn [setup_database setup_events]. now rewrite <- ?app_assoc.
Qed.

(** X16. On a table that holds a row the seeder inserts nothing: it
    obtains a connection, counts the rows, logs that the database is
    already seeded and releases the connection; the table is as it
    was. *)
Theorem seedDatabase_skips_a_table_with_rows :
  forall refuses (w : SetupWorld MySQL.Database),
    MySQL.users (setup_database w) <> [] ->
    database.seedDatabase (MySQLConnection.pool refuses) w
    = (Resolved tt,
       mkSetupWorld (setup_database w)
         (setup_events w
            ++ [Acquired; Queried "SELECT COUNT(*) as count FROM users" [];
                LoggedInfo "Database already seeded, skipping seed operation";
                Released])).
Proof.
  intros refuses w Hrows. rewrite seedDatabase_over_table.
  destruct (MySQL.users (setup_database w)); [contradiction | reflexivity].
Qed.

Lemma seedDatabase_skips_a_table_with_rows_witness :
  setup_database
    (snd (database.seedDatabase (MySQLConnection.pool mocks.unique_email)
            (setup_mocks.table mocks.mockUsers)))
  = MySQL.mkDatabase mocks.mockUsers 1 1000.
Proof.
  rewrite (seedDatabase_skips_a_table_with_rows mocks.unique_email
             (setup_mocks.table mocks.mockUsers)).
  - reflexivity.
  - discriminate.
Defined.

(** X17. Seeding is idempotent: whenever a run of the seeder succeeds,
    on any table and any server, the next run finds rows, inserts
    nothing and leaves the table as the first run left it. *)
Theorem seedDatabase_twice_is_seedDatabase_once :
  forall refuses (w : SetupWorld MySQL.Database),
    let pool := MySQLConnection.pool refuses in
    let first := database.seedDatabase pool w in
    fst first = Resolved tt ->
    database.seedDatabase pool (snd first)
    = (Resolved tt,
       mkSetupWorld (setup_database (snd first))
         (setup_events (snd first)
            ++ [Acquired; Queried "SELECT COUNT(*) as count FROM users" [];
                LoggedInfo "Database already seeded, skipping seed operation";
                Released])).
Proof.
  intros refuses w pool first Hfirst. subst pool.
  assert (Hrows : MySQL.users (setup_database (snd first)) <> []).
  { subst first. rewrite seedDatabase_over_table in *.
    destruct (MySQL.users (setup_database w)) as [|row rows] eqn:Hbefore.
    - destruct (for_of database.users _ _) as [[[]|[e| |]] w1] eqn:Hloop;
        [|discriminate Hfirst..].
      apply seeding_loop_over_table in Hloop. destruct Hloop as [_ Hall].
      specialize (Hall eq_refl). cbn [snd setup_database] in *.
      intros Hempty. rewrite Hempty, Hbefore in Hall. discriminate Hall.
    - cbn [snd setup_database]. rewrite Hbefore. discriminate. }
  rewrite seedDatabase_over_table.
  destruct (MySQL.users (setup_database (snd first))); [contradiction | reflexivity].
Qed.

Lemma seedDatabase_twice_is_seedDatabase_once_witness :
  let pool := MySQLConnection.pool mocks.unique_email in
  let first := database.seedDatabase pool (setup_mocks.table []) in
  setup_database (snd (database.seedDatabase pool (snd first)))
  = setup_database (snd first)
  /\ List.length (MySQL.users (setup_database (snd first))) = 5%nat.
Proof.
  intros pool first. subst first pool. split; [|reflexivity].
  rewrite (seedDatabase_twice_is_seedDatabase_once mocks.unique_email
             (setup_mocks.table []));
    reflexivity.
Defined.

(** X18. On an empty table and a server that accepts every row, the
    seeder succeeds and stores the five sample users, in the order of
    the sample, under consecutive identifiers starting at the counter,
    each with the current time as both timestamps. *)
Theorem seedDatabase_fills_an_empty_table :
  forall refuses (w : SetupWorld MySQL.Database),
    MySQL.users (setup_database w) = [] ->
    (forall rows row, refuses rows row = None) ->
    let first_id := MySQL.AUTO_INCREMENT (setup_database w) in
    let now := MySQL.CURRENT_TIMESTAMP (setup_database w) in
    let seeded := database.seedDatabase (MySQLConnection.pool refuses) w in
    fst seeded = Resolved tt
    /\ setup_database (snd seeded)
       = MySQL.mkDatabase
           [mkUser first_id "Alice Johnson" "alice@example.com" (Some 32) now now;
            mkUser (first_id + 1) "Bob Smith" "bob@example.com" (Some 45) now now;
            mkUser (first_id + 1 + 1) "Carol Williams" "carol@example.com" (Some 28)
              now now;
            mkUser (first_id + 1 + 1 + 1) "David Brown" "david@example.com" (Some 39)
              now now;
            mkUser (first_id + 1 + 1 + 1 + 1) "Eva Davis" "eva@example.com" (Some 24)
              now now]
           (first_id + 1 + 1 + 1 + 1 + 1) now.
Proof.
  intros refuses w Hempty Hlenient first_id now seeded.
  subst seeded now first_id. rewrite seedDatabase_over_table, Hempty.
  destruct w as [[rows counter now] events]. cbn in Hempty. subst rows.
  unfold database.users. cbn [for_of]. unfold bind, database.query, ret.
  cbn [connection_query MySQLConnection.pool setup_database setup_events].
  repeat (rewrite insert_statement_on_connection; unfold MySQL.insert;
          rewrite Hlenient; unfold MySQL.header;
          cbn [MySQL.users MySQL.AUTO_INCREMENT MySQL.CURRENT_TIMESTAMP
                 setup_database setup_events]).
  split; reflexivity.
Qed.

Lemma seedDatabase_fills_an_empty_table_witness :
  MySQL.users
    (setup_database
       (snd (database.seedDatabase (MySQLConnection.pool mocks.lenient)
               (setup_mocks.table []))))
  = [mkUser 1 "Alice Johnson" "alice@example.com" (Some 32) 1000 1000;
     mkUser 2 "Bob Smith" "bob@example.com" (Some 45) 1000 1000;
     mkUser 3 "Carol Williams" "carol@example.com" (Some 28) 1000 1000;
     mkUser 4 "David Brown" "david@example.com" (Some 39) 1000 1000;
     mkUser 5 "Eva Davis" "eva@example.com" (Some 24) 1000 1000].
Proof.
  destruct (seedDatabase_fills_an_empty_table mocks.lenient (setup_mocks.table []))
    as [_ Hdb].
  - reflexivity.
  - intros rows row. reflexivity.
  - now rewrite Hdb.
Defined.

(** What the setup functions reject with has a message: their handlers
    either rethrow what they could read the message of, or raise a
    TypeError themselves. *)
Ltac rejection_has_a_message :=
  unfold try_catch;
  match goal with
  | |- context [match ?body with _ => _ end] => destruct body as [[a|[e| |]] w1]
  end;
  unfold bind, message_of, database.logger_error, ret, throw;
  intros ex w' Hrun; inversion Hrun; reflexivity.

Lemma testConnection_rejection {D} (pool : ConnectionPool D) (w : SetupWorld D) :
  forall ex w', database.testConnection pool w = (Rejected ex, w') -> nullish ex = false.
Proof. unfold database.testConnection. rejection_has_a_message. Qed.

Lemma initializeDatabase_rejection {D} (pool : ConnectionPool D) (w : SetupWorld D) :
  forall ex w',
    database.initializeDatabase pool w = (Rejected ex, w') -> nullish ex = false.
Proof. unfold database.initializeDatabase. rejection_has_a_message. Qed.

Lemma seedDatabase_rejection {D} (pool : ConnectionPool D) (w : SetupWorld D) :
  forall ex w', database.seedDatabase pool w = (Rejected ex, w') -> nullish ex = false.
Proof. unfold database.seedDatabase. rejection_has_a_message. Qed.

(** X19. The setup that server.ts runs on load never rejects: whatever
    the pool does, it resolves, having logged the failure if there was
    one. Outside the development environment it does not seed: the
    only statement it sends is the CREATE TABLE of
    [initializeDatabase]. *)
Theorem setup_on_start_never_rejects :
  forall D (pool : ConnectionPool D) (NODE_ENV : string) (w : SetupWorld D),
    (exists w', database.initialize_on_start pool NODE_ENV w = (Resolved tt, w'))
    /\ (NODE_ENV <> "development" ->
        exists events,
          setup_events (snd (database.initialize_on_start pool NODE_ENV w))
          = (setup_events w ++ events)%list
          /\ forall sql values,
              In (Queried sql values) events ->
              sql = CREATE_TABLE_users /\ values = []).
Proof.
  intros D pool NODE_ENV w. split.
  - unfold database.initialize_on_start, try_catch.
    match goal with
    | |- context [match ?body with _ => _ end] =>
        destruct body as [[[]|ex] w1] eqn:Hbody
    end; [eexists; reflexivity|].
    assert (Hmessage : nullish ex = false).
    { unfold bind in Hbody.
      destruct (database.testConnection pool w) as [[ok|ex0] w0] eqn:Htest.
      - destruct (database.initializeDatabase pool w0) as [[[]|ex1] w2] eqn:Hinit.
        + destruct (NODE_ENV =? "development")%string; [|discriminate Hbody].
          now apply (seedDatabase_rejection pool w2 ex w1).
        + injection Hbody as <- _.
          now apply (initializeDatabase_rejection pool w0 ex1 w2).
      - injection Hbody as <- _.
        now apply (testConnection_rejection pool w ex0 w0). }
    destruct ex as [e| |]; try discriminate Hmessage.
    unfold bind, message_of, database.logger_error, ret. eexists. reflexivity.
  - intros Hnot_dev. unfold database.initialize_on_start.
    destruct (String.eqb_spec NODE_ENV "development") as [Hdev|_]; [contradiction|].
    unfold_setup.
    destruct (pool_getConnection pool (setup_database w)) as [[[]|[e1| |]] d1];
      cbn [setup_database setup_events fst snd];
      (destruct (pool_getConnection pool d1) as [[[]|[e2| |]] d2];
       cbn [setup_database setup_events fst snd];
       [destruct (connection_query pool CREATE_TABLE_users [] d2)
          as [[rows|[e3| |]] d3];
        cbn [setup_database setup_events fst snd]|..]);
      rewrite <- ?app_assoc; (eexists; split; [reflexivity|]);
      intros sql values Hin; rewrite ?in_app_iff in Hin; cbn [In] in Hin;
      repeat (destruct Hin as [Hin|Hin]; try discriminate Hin);
      first [contradiction | injection Hin as <- <-; split; reflexivity].
Qed.

Lemma setup_on_start_never_rejects_witness :
  database.initialize_on_start (setup_mocks.deafConnections "Connection lost")
    "production" (mkSetupWorld tt [])
  = (Resolved tt,
     mkSetupWorld tt
       [Acquired; LoggedInfo "Database connection established successfully";
        Released; Acquired; Queried CREATE_TABLE_users [];
        LoggedError "Database initialization failed: Connection lost";
        LoggedError "Database setup failed: Connection lost"])
  /\ forall sql values,
      In (Queried sql values)
         (setup_events
            (snd (database.initialize_on_start
                    (setup_mocks.deafConnections "Connection lost")
                    "production" (mkSetupWorld tt [])))) ->
      sql = CREATE_TABLE_users.
Proof.
  split; [reflexivity|].
  destruct (proj2 (setup_on_start_never_rejects unit
                     (setup_mocks.deafConnections "Connection lost")
                     "production" (mkSetupWorld tt [])))
    as [events [Hevents Honly]]; [discriminate|].
  intros sql values Hin. rewrite Hevents in Hin. cbn [setup_events app] in Hin.
  now apply (Honly sql values).
Defined.

(* ================================================================== *)
(** * Updating over the [users] table                                  *)
(* ================================================================== *)

(** X20. Over the [users] table and a server that accepts the write,
    updating an existing user without supplying an email answers "User
    updated successfully" with status 200 and the stored row: it
    carries the supplied name and age, and the identifier, email,
    creation time and every field not supplied of the row as it
    was. *)
Theorem update_without_email_over_table :
  forall refuses (id_ : Z) (userData : PartialUserData)
         (w : ServiceWorld (RepositoryWorld MySQL.Database)) (existing : User),
    hd_error (filter (fun r => id r =? id_) (MySQL.users (database (repository w))))
    = Some existing ->
    partial_email userData = None ->
    (forall rows row, refuses rows row = None) ->
    exists updated,
      fst (UserService.update (UserRepository.UserRepository (MySQL.pool refuses))
             id_ userData w)
      = Resolved (ServiceResponse_.success "User updated successfully"
                    (a_user updated) None)
      /\ id updated = id_
      /\ email updated = email existing
      /\ createdAt updated = createdAt existing
      /\ name updated = match partial_name userData with
                        | Some n => n
                        | None => name existing
                        end
      /\ age updated = match partial_age userData with
                       | Some a => Some a
                       | None => age existing
                       end.
Proof.
  intros refuses id_ userData w existing Hfirst Hemail Hlenient.
  pose proof (first_match_in _ _ _ Hfirst) as [_ Hid].
  unfold UserService.update. unfold_async.
  cbn [findByIdAsync findAllAsync updateAsync UserRepository.UserRepository].
  rewrite findByIdAsync_over_table, Hfirst.
  rewrite (email_is_changing_false userData existing (or_introl Hemail)).
  cbn [repository trace].
  destruct (UserRepository.updateFields userData) as [|field fields] eqn:Hfields.
  - destruct (updateFields_empty _ Hfields) as [Hname [_ Hage]].
    assert (Hsame : forall wu,
               UserRepository.updateAsync (MySQL.pool refuses) id_ userData wu
               = UserRepository.findByIdAsync (MySQL.pool refuses) id_ wu).
    { intros wu. destruct userData as [n e a]. cbn in Hname, Hemail, Hage. now subst. }
    rewrite Hsame, findByIdAsync_over_table. cbn [database]. rewrite Hfirst.
    exists existing. rewrite Hname, Hage. cbn. repeat split. exact Hid.
  - assert (Hnonempty : UserRepository.updateFields userData <> [])
      by (rewrite Hfields; discriminate).
    match goal with
    | |- context [UserRepository.updateAsync ?p ?i ?u ?wu] =>
        destruct (updateAsync_over_table refuses id_ userData wu Hnonempty)
          as [write [Hwrite [[e [w' [_ [_ [_ Hstrict]]]]]|[w' [Hrun _]]]]];
        [contradiction|]; rewrite Hrun
    end.
    cbn [database]. rewrite Hfirst. cbn [option_map].
    destruct (Hwrite existing) as [Hid' [Hcreated [Hname [Hemail' Hage]]]].
    exists (write existing). cbn. rewrite Hemail in Hemail'.
    repeat split; try assumption. congruence.
Qed.

Lemma update_without_email_over_table_witness :
  fst (UserService.update (UserRepository.UserRepository (MySQL.pool mocks.lenient))
         1 (mkPartial None None (Some 40)) (mocks.table mocks.mockUsers))
  = Resolved (ServiceResponse_.success "User updated successfully"
                (a_user (mkUser 1 "Alice" "alice@example.com" (Some 40) 0 1000)) None).
Proof.
  destruct (update_without_email_over_table mocks.lenient 1
              (mkPartial None None (Some 40)) (mocks.table mocks.mockUsers)
              mocks.alice) as [updated [Hrun _]].
  - reflexivity.
  - reflexivity.
  - intros rows row. reflexivity.
  - rewrite Hrun. f_equal. f_equal. f_equal.
    assert (Hsame : Resolved (ServiceResponse_.success "User updated successfully"
                                (a_user updated) None)
                    = Resolved (ServiceResponse_.success "User updated successfully"
                                  (a_user (mkUser 1 "Alice" "alice@example.com"
                                             (Some 40) 0 1000)) None))
      by (rewrite <- Hrun; reflexivity).
    now injection Hsame.
Defined.
